(** * Igris assistant: the gift registry script and the anticipatory engine

    Three parts.

    - [Js] and [GiftRegistry] embed the normalisation functions of
      [web/gift_registry/script.js]: [normalizeRecipient], [normalizePrice],
      [cryptoRandomId] and [enhanceGift], over a model of the JavaScript
      values that [JSON.parse] and a form can hand to them.
    - [GiftPage] embeds the functions of the page around them: [loadGifts],
      [handleSubmit], [handleReset], the grouping loop of [renderLists],
      [updateStats], [summaryText], the toggle button and the arithmetic of
      the countdown.
    - [Miner] and [Decay] model two parts of the anticipatory engine, the
      Feedback Adjuster and the decay rule of the Pattern Miner.  The
      repository ships no code for the engine, only its design; every
      definition of that part is written from the specification and says
      so. *)

From Stdlib Require Import String Ascii List ZArith Bool Lia.
From Stdlib Require Import SpecFloat DecimalString DecimalNat.
From Stdlib Require Import Reals Lra.
From Stdlib Require Import QArith Qminmax Lqa.
Import ListNotations.

Set Warnings "-register-all".

Local Open Scope list_scope.
Local Open Scope string_scope.

(* ================================================================== *)
(** * JavaScript values and the conversions the script relies on *)
(* ================================================================== *)

Module Js.

(** Numbers are IEEE 754 binary64 values: [S754_nan], the two infinities,
    the two zeros and the finite values [(-1)^s * m * 2^e]. *)
Definition JsNum := spec_float.

(** The values [JSON.parse] builds, plus [undefined] (a missing property).
    Objects are plain objects: their own properties in insertion order,
    each key once, prototype [Object.prototype]; arrays have prototype
    [Array.prototype]. *)
Inductive JsValue : Type :=
| JsUndefined
| JsNull
| JsBoolean (b : bool)
| JsNumber (n : JsNum)
| JsString (s : string)
| JsArray (elems : list JsValue)
| JsObject (props : list (string * JsValue)).

(** The only exception the modelled code can raise. *)
Inductive JsError : Type := TypeError.

(** Outcome of evaluating an expression: a value or a thrown exception. *)
Inductive Completion (A : Type) : Type :=
| Normal (a : A)
| Throw (e : JsError).
Arguments Normal {A} a.
Arguments Throw {A} e.

Definition bind {A B} (c : Completion A) (k : A -> Completion B) : Completion B :=
  match c with
  | Normal a => k a
  | Throw e => Throw e
  end.

Notation "x <- c ;; k" := (bind c (fun x => k))
  (at level 61, c at next level, right associativity).

(** The conversions between numbers and strings belong to the JavaScript
    engine ([Number::toString] and [StringToNumber] of ECMAScript); the
    script does not define them, so they are taken as parameters. *)
Record Host : Type := {
  NumberToString : JsNum -> string;
  StringToNumber : string -> JsNum
}.

Definition isNaN (n : JsNum) : bool :=
  match n with S754_nan => true | _ => false end.

Definition isZero (n : JsNum) : bool :=
  match n with S754_zero _ => true | _ => false end.

(** [Number.isFinite] on a number. *)
Definition Number_isFinite (n : JsNum) : bool :=
  match n with
  | S754_zero _ | S754_finite _ _ _ => true
  | S754_infinity _ | S754_nan => false
  end.

(** [ToBoolean]: [undefined], [null], [false], [+0], [-0], [NaN] and the
    empty string are falsy, everything else (every object) is truthy. *)
Definition ToBoolean (v : JsValue) : bool :=
  match v with
  | JsUndefined | JsNull => false
  | JsBoolean b => b
  | JsNumber n => negb (isZero n || isNaN n)
  | JsString s => negb (s =? "")
  | JsArray _ | JsObject _ => true
  end.

(** [a || b] on values already evaluated. *)
Definition js_or (a b : JsValue) : JsValue :=
  if ToBoolean a then a else b.

Definition isPrimitive (v : JsValue) : bool :=
  match v with
  | JsArray _ | JsObject _ => false
  | _ => true
  end.

Fixpoint hasOwn (key : string) (props : list (string * JsValue)) : bool :=
  match props with
  | [] => false
  | (k, _) :: rest => (k =? key) || hasOwn key rest
  end.

(** [ToString] (what [String(v)] computes for a non-symbol).

    - An array converts through [Array.prototype.join]: elements separated
      by commas, [undefined] and [null] elements giving the empty string.
    - A plain object converts through [OrdinaryToPrimitive] with hint
      string, which tries [toString] then [valueOf].  A value built by
      [JSON.parse] is never callable, so an own [toString] property hides
      [Object.prototype.toString]; [valueOf] is then either an own
      non-callable property or [Object.prototype.valueOf], which returns the
      object itself: no primitive is found and a [TypeError] is thrown.
      Without an own [toString] the result is ["[object Object]"]. *)
Definition joinWith (conv : JsValue -> Completion string)
  : list JsValue -> Completion string :=
  fix join (l : list JsValue) : Completion string :=
    match l with
    | [] => Normal ""
    | x :: rest =>
        s <- match x with
             | JsUndefined | JsNull => Normal ""
             | _ => conv x
             end ;;
        match rest with
        | [] => Normal s
        | _ :: _ => r <- join rest ;; Normal (s ++ "," ++ r)
        end
    end.

Fixpoint ToString (h : Host) (v : JsValue) : Completion string :=
  match v with
  | JsUndefined => Normal "undefined"
  | JsNull => Normal "null"
  | JsBoolean b => Normal (if b then "true" else "false")
  | JsNumber n => Normal (NumberToString h n)
  | JsString s => Normal s
  | JsArray elems => joinWith (ToString h) elems
  | JsObject props =>
      if hasOwn "toString" props then Throw TypeError
      else Normal "[object Object]"
  end.

(** The values whose conversion to a string finds no primitive: an object
    with an own [toString] property, or an array holding such a value. *)
Fixpoint hidesToString (v : JsValue) : bool :=
  match v with
  | JsObject props => hasOwn "toString" props
  | JsArray elems => existsb hidesToString elems
  | _ => false
  end.

Definition js_one : JsNum := S754_finite false 4503599627370496 (-52).

(** [ToNumber] (what [Number(v)] computes).  Objects and arrays convert
    through [OrdinaryToPrimitive] with hint number: [valueOf] first, which
    yields no primitive (see [ToString]), then [toString]. *)
Definition ToNumber (h : Host) (v : JsValue) : Completion JsNum :=
  match v with
  | JsUndefined => Normal S754_nan
  | JsNull => Normal (S754_zero false)
  | JsBoolean b => Normal (if b then js_one else S754_zero false)
  | JsNumber n => Normal n
  | JsString s => Normal (StringToNumber h s)
  | JsArray _ | JsObject _ =>
      s <- ToString h v ;; Normal (StringToNumber h s)
  end.

(** [String.prototype.toLowerCase] on the letters A-Z.  Strings hold the
    UTF-8 bytes of the text; bytes outside A-Z are kept.  The script only
    compares the result with lower-case ASCII words, and no character
    outside A-Z lower-cases to one of the letters of "wife", "mom" or
    "spouse", so the comparisons below come out as in a browser. *)
Definition lowerAscii (c : ascii) : ascii :=
  let n := nat_of_ascii c in
  if (65 <=? n)%nat && (n <=? 90)%nat then ascii_of_nat (n + 32) else c.

Fixpoint toLowerCase (s : string) : string :=
  match s with
  | EmptyString => EmptyString
  | String c rest => String (lowerAscii c) (toLowerCase rest)
  end.

End Js.

(* ================================================================== *)
(** * web/gift_registry/script.js *)
(* ================================================================== *)

Module GiftRegistry.
Import Js.

(** [normalizeRecipient(value)]: lower-case [String(value || "")] and
    switch on it.  The cases are kept in the order of the source. *)
Definition normalizeRecipient (h : Host) (value : JsValue) : Completion string :=
  s <- ToString h (js_or value (JsString "")) ;;
  let normalized := toLowerCase s in
  Normal
    (if (normalized =? "wife") || (normalized =? "mom") || (normalized =? "spouse")
     then "wife"
     else if (normalized =? "kid") || (normalized =? "kids")
             || (normalized =? "child") || (normalized =? "children")
             || (normalized =? "son") || (normalized =? "daughter")
     then "kids"
     else if normalized =? "dad"
     then "kids"
     else "kids").

(** [normalizePrice(value)]. *)
Definition normalizePrice (h : Host) (value : JsValue) : Completion JsValue :=
  match value with
  | JsNumber n =>
      Normal (if Number_isFinite n then JsNumber n else JsNull)
  | JsNull | JsUndefined => Normal JsNull
  | JsString EmptyString => Normal JsNull
  | _ =>
      parsed <- ToNumber h value ;;
      Normal (if Number_isFinite parsed then JsNumber parsed else JsNull)
  end.

(** What the two impure calls of [enhanceGift] would return if made:
    [window.crypto.randomUUID()] ([None] when [window.crypto] or its
    [randomUUID] is missing), [Math.random().toString(16).slice(2, 10)] and
    [new Date().toISOString()]. *)
Record Env : Type := {
  randomUUID : option string;
  mathRandomHex : string;
  nowISO : string
}.

(** [cryptoRandomId()]. *)
Definition cryptoRandomId (env : Env) : string :=
  match randomUUID env with
  | Some uuid => uuid
  | None => "gift-" ++ mathRandomHex env
  end.

(** [gift.key] on a plain object: the own property, or [undefined]. *)
Fixpoint Get (props : list (string * JsValue)) (key : string) : JsValue :=
  match props with
  | [] => JsUndefined
  | (k, v) :: rest => if k =? key then v else Get rest key
  end.

(** [enhanceGift(gift)] for a plain object [gift].  The properties of the
    object literal are evaluated in source order; only [id], [recipient] and
    [price] can throw. *)
Definition enhanceGift (h : Host) (env : Env) (gift : list (string * JsValue))
  : Completion (list (string * JsValue)) :=
  id <- ToString h (js_or (Get gift "id") (JsString (cryptoRandomId env))) ;;
  let name := js_or (Get gift "name") (JsString "Untitled gift") in
  recipient <- normalizeRecipient h (Get gift "recipient") ;;
  let category := js_or (Get gift "category") (JsString "experience") in
  let priority := js_or (Get gift "priority") (JsString "Medium") in
  price <- normalizePrice h (Get gift "price") ;;
  let link := js_or (Get gift "link") (JsString "") in
  let notes := js_or (Get gift "notes") (JsString "") in
  let purchased := JsBoolean (ToBoolean (Get gift "purchased")) in
  let added := js_or (Get gift "added") (JsString (nowISO env)) in
  Normal [ ("id", JsString id);
           ("name", name);
           ("recipient", JsString recipient);
           ("category", category);
           ("priority", priority);
           ("price", price);
           ("link", link);
           ("notes", notes);
           ("purchased", purchased);
           ("added", added) ].

End GiftRegistry.

(* ================================================================== *)
(** * A host to run the script on *)
(* ================================================================== *)

Module ExampleHost.
Import Js.

(** The integer a number denotes, when it denotes one. *)
Definition integerValue (n : JsNum) : option Z :=
  match n with
  | S754_zero _ => Some 0%Z
  | S754_finite s m e =>
      let magnitude :=
        if (0 <=? e)%Z then Some (Zpos m * 2 ^ e)%Z
        else if (Zpos m mod 2 ^ (- e) =? 0)%Z then Some (Zpos m / 2 ^ (- e))%Z
        else None in
      option_map (fun z => if s then (- z)%Z else z) magnitude
  | _ => None
  end.

(** The binary64 number nearest to an integer (ties to even). *)
Definition numberOfZ (z : Z) : JsNum := binary_normalize 53 1024 z 0 false.

(** [Number::toString] on NaN, the infinities, the zeros and the integers
    below 10^21, which print in plain decimal.  Fractions and larger numbers
    need the shortest-digits algorithm, which is not modelled: this instance
    answers ["NaN"] there, and the examples stay away from them. *)
Definition numberToString (n : JsNum) : string :=
  match n with
  | S754_nan => "NaN"
  | S754_infinity s => if s then "-Infinity" else "Infinity"
  | _ =>
      match integerValue n with
      | Some z =>
          if (Z.abs z <? 10 ^ 21)%Z then NilZero.string_of_int (Z.to_int z)
          else "NaN"
      | None => "NaN"
      end
  end.

(** [StringToNumber] on the empty string, the infinities and plain decimal
    integers; every other string is answered with NaN. *)
Definition stringToNumber (s : string) : JsNum :=
  if s =? "" then S754_zero false
  else if (s =? "Infinity") || (s =? "+Infinity") then S754_infinity false
  else if s =? "-Infinity" then S754_infinity true
  else match NilZero.int_of_string s with
       | Some i => numberOfZ (Z.of_int i)
       | None => S754_nan
       end.

Definition host : Host :=
  {| NumberToString := numberToString; StringToNumber := stringToNumber |}.

(** A browser with [crypto.randomUUID], at some instant. *)
Definition env : GiftRegistry.Env :=
  {| GiftRegistry.randomUUID := Some "3b241101-e2bb-4255-8caf-4136c566a962";
     GiftRegistry.mathRandomHex := "8f3a91c2";
     GiftRegistry.nowISO := "2024-05-01T08:00:00.000Z" |}.

(** The first entry of [defaultGifts]. *)
Definition gift_w_1 : list (string * JsValue) :=
  [ ("id", JsString "gift-w-1");
    ("name", JsString "Sunrise coffee tasting basket");
    ("recipient", JsString "wife");
    ("category", JsString "wellness");
    ("priority", JsString "High");
    ("price", JsNumber (numberOfZ 95));
    ("link", JsString "https://www.craftcoffee.com");
    ("notes", JsString "Include her favorite Ethiopian roast and a handwritten playlist for the tasting.");
    ("purchased", JsBoolean false);
    ("added", JsString "2024-01-12T09:00:00.000Z") ].

End ExampleHost.

(* ================================================================== *)
(** * The anticipatory engine: Feedback Adjuster and decay rule *)
(* ================================================================== *)

(** The repository holds the design of the engine and no code for it.  The
    Feedback Adjuster ([Miner]) and the decay rule ([Decay]) below are
    written from the specification, section by section. *)

Module Miner.

(** Modelled from the spec: PatternStats (section 3),
    [{ antecedentCount, episodeCount, lastSeenAt, feedbackWeight }] with
    [confidence = episodeCount / antecedentCount]; no pattern store is in
    the sources.  Counts and weights are exact rationals. *)
Record PatternStats : Type := {
  antecedentCount : Q;
  episodeCount : Q;
  lastSeenAt : Z;
  feedbackWeight : Q
}.

(** Modelled from the spec: a pattern key, [(antecedent, consequent)]
    (section 3), missing from the sources. *)
Definition PatternKey : Type := (string * string)%type.

(** Modelled from the spec: equality of pattern keys, by which the store is
    "keyed" (section 2); missing from the sources. *)
Definition key_eqb (k1 k2 : PatternKey) : bool :=
  (fst k1 =? fst k2) && (snd k1 =? snd k2).

(** Modelled from the spec: the Pattern Store (section 2), statistics
    "keyed by ordered action pairs"; missing from the sources.  An
    association list, each key at most once. *)
Definition PatternStore : Type := list (PatternKey * PatternStats).

(** Modelled from the spec: reading "the live PatternStats entry" of a key
    (section 4.5); [None] when "the key no longer exists".  Missing from
    the sources. *)
Fixpoint lookup (key : PatternKey) (store : PatternStore) : option PatternStats :=
  match store with
  | [] => None
  | (k, s) :: rest => if key_eqb k key then Some s else lookup key rest
  end.

(** Modelled from the spec: writing the entry of a key in place (section
    4.5, "applied directly to the live PatternStats entry"); a key that is
    not stored is not added.  Missing from the sources. *)
Fixpoint update (key : PatternKey) (s : PatternStats) (store : PatternStore)
  : PatternStore :=
  match store with
  | [] => []
  | (k, s0) :: rest =>
      if key_eqb k key then (k, s) :: rest else (k, s0) :: update key s rest
  end.

(** Modelled from the spec: the decision of a FeedbackRecord (section 3),
    missing from the sources. *)
Inductive Decision : Type := Accepted | Dismissed.

(** Modelled from the spec: the weight rule of the Feedback Adjuster
    (section 4.5), missing from the sources: on Accepted
    [min(2.0, feedbackWeight * 1.2)], on Dismissed
    [max(0.1, feedbackWeight * 0.8)]. *)
Definition adjust (d : Decision) (w : Q) : Q :=
  match d with
  | Accepted => Qmin 2 (w * (12 # 10))
  | Dismissed => Qmax (1 # 10) (w * (8 # 10))
  end.

(** Modelled from the spec: the result of [record] (section 4.5), which
    "fails with UnknownPattern if the key no longer exists". *)
Inductive RecordResult : Type :=
| Recorded (store : PatternStore)
| UnknownPattern.

(** Modelled from the spec: an entry with its [feedbackWeight] replaced,
    the only field [record] touches (section 4.5); missing from the
    sources. *)
Definition withWeight (s : PatternStats) (w : Q) : PatternStats :=
  {| antecedentCount := antecedentCount s;
     episodeCount := episodeCount s;
     lastSeenAt := lastSeenAt s;
     feedbackWeight := w |}.

(** Modelled from the spec: [record(patternKey, decision)] of the Feedback
    Adjuster (section 4.5), missing from the sources: the rule is "applied
    directly to the live PatternStats entry". *)
Definition record (key : PatternKey) (d : Decision) (store : PatternStore)
  : RecordResult :=
  match lookup key store with
  | None => UnknownPattern
  | Some s => Recorded (update key (withWeight s (adjust d (feedbackWeight s))) store)
  end.

(** Modelled from the spec: [record] "applied [n] consecutive times"
    (scenario of section 8). *)
Fixpoint recordTimes (n : nat) (key : PatternKey) (d : Decision)
    (store : PatternStore) : RecordResult :=
  match n with
  | O => Recorded store
  | S n' =>
      match record key d store with
      | Recorded store' => recordTimes n' key d store'
      | UnknownPattern => UnknownPattern
      end
  end.

(** Modelled from the spec: the [feedbackWeight] of a pattern after [n]
    consecutive applications of [record] (scenario of section 8); missing
    from the sources. *)
Definition weightAfter (n : nat) (key : PatternKey) (d : Decision)
    (store : PatternStore) : option Q :=
  match recordTimes n key d store with
  | Recorded store' => option_map feedbackWeight (lookup key store')
  | UnknownPattern => None
  end.

(** [0.8 ^ n], the factor [n] dismissals apply to a weight above the floor. *)
Fixpoint pow08 (n : nat) : Q :=
  match n with
  | O => 1
  | S n' => (8 # 10) * pow08 n'
  end.

End Miner.

(** A store to run the Feedback Adjuster on. *)
Module ExampleMiner.
Import Miner.

(** One pattern, seen three times out of three, at the weight [w]. *)
Definition store (w : Q) : PatternStore :=
  [(("A", "B"), {| antecedentCount := 3; episodeCount := 3;
                   lastSeenAt := 140; feedbackWeight := w |})].

End ExampleMiner.

(** The decay rule of the Pattern Miner, over the real numbers. *)
Module Decay.
Local Open Scope R_scope.

(** Modelled from the spec: the part of a PatternStats entry the decay rule
    of section 4.3 reads and writes, [antecedentCount], [episodeCount] and
    [lastSeenAt]; no pattern store is in the sources.  The rule multiplies
    by [exp(-lambda * dt)], so counts and times are real numbers here. *)
Record Counts : Type := {
  antecedentCount : R;
  episodeCount : R;
  lastSeenAt : R
}.

(** Modelled from the spec: the factor [exp(-lambda * dt)] of the decay
    rule (section 4.3), missing from the sources. *)
Definition decayFactor (lambda dt : R) : R := exp (- (lambda * dt)).

(** Modelled from the spec: the decay rule (section 4.3), missing from the
    sources: [antecedentCount *= exp(-lambda * dt)],
    [episodeCount *= exp(-lambda * dt)], "where [dt] is time since
    [lastSeenAt]".  No event arrives, so [lastSeenAt] stays. *)
Definition decayed (lambda now : R) (s : Counts) : Counts :=
  {| antecedentCount := antecedentCount s * decayFactor lambda (now - lastSeenAt s);
     episodeCount := episodeCount s * decayFactor lambda (now - lastSeenAt s);
     lastSeenAt := lastSeenAt s |}.

(** Modelled from the spec: the periodic tick (section 4.3), missing from
    the sources: apply the decay, and prune the pattern ([None]) when a
    count is below the floor ("counts below a floor are pruned"). *)
Definition tick (lambda floor now : R) (s : Counts) : option Counts :=
  let s' := decayed lambda now s in
  if Rlt_dec (antecedentCount s') floor then None
  else if Rlt_dec (episodeCount s') floor then None
  else Some s'.

(** A pattern seen three times out of four, last at time 140. *)
Definition exampleCounts : Counts :=
  {| antecedentCount := 4; episodeCount := 3; lastSeenAt := 140 |}.

End Decay.

(* ================================================================== *)
(** * web/gift_registry/script.js: the page around the normalisers *)
(* ================================================================== *)

Module GiftPage.
Import Js GiftRegistry.

(** A gift: a plain object, its own properties in order. *)
Definition Gift : Type := list (string * JsValue).

(** An integer literal of the script, as a number. *)
Definition numberLiteral (z : Z) : JsNum := binary_normalize 53 1024 z 0 false.

Definition starter (id name recipient category priority : string) (price : Z)
    (link notes : string) (purchased : bool) (added : string) : Gift :=
  [ ("id", JsString id);
    ("name", JsString name);
    ("recipient", JsString recipient);
    ("category", JsString category);
    ("priority", JsString priority);
    ("price", JsNumber (numberLiteral price));
    ("link", JsString link);
    ("notes", JsString notes);
    ("purchased", JsBoolean purchased);
    ("added", JsString added) ].

(** [defaultGifts]. *)
Definition defaultGifts : list Gift :=
  [ starter "gift-w-1" "Sunrise coffee tasting basket" "wife" "wellness" "High" 95
      "https://www.craftcoffee.com"
      "Include her favorite Ethiopian roast and a handwritten playlist for the tasting."
      false "2024-01-12T09:00:00.000Z";
    starter "gift-w-2" "StoryWorth subscription" "wife" "keepsake" "Medium" 99
      "https://www.storyworth.com"
      "Pair with a new fountain pen from the kids."
      true "2024-02-02T18:30:00.000Z";
    starter "gift-w-3" "Moonlit rooftop picnic kit" "wife" "experience" "Medium" 110
      "https://www.simplesatchel.com"
      "Pack her favorite tapas, string lights, and a new playlist for slow dancing under the stars."
      false "2024-03-14T17:45:00.000Z";
    starter "gift-k-1" "Junior chef Saturday" "kids" "experience" "High" 55
      "https://www.peterspantry.com/classes"
      "Pick a recipe each child can lead. Capture a video taste test!"
      false "2024-03-05T15:20:00.000Z";
    starter "gift-k-2" "Personalized comic book kit" "kids" "creative" "Medium" 42
      "https://www.etsy.com/listing/1297619652"
      "Add markers that match their favorite heroes."
      false "2024-01-28T21:10:00.000Z";
    starter "gift-k-3" "Backyard astronomy night" "kids" "learning" "High" 60
      "https://www.exploratoriumstore.com"
      "Set up a telescope, print constellation maps, and wrap a cozy blanket for stargazing."
      false "2024-02-18T20:05:00.000Z" ].

(** [const recipients = ["wife", "kids"]]. *)
Definition recipients : list string := ["wife"; "kids"].

(** What the page asks of the browser besides [Host]: [JSON.parse] ([None]
    when it throws a [SyntaxError]) and [String.prototype.trim]. *)
Record PageHost : Type := {
  JSON_parse : string -> option JsValue;
  trim : string -> string
}.

(** The local storage as [loadGifts] sees it: [hasLocalStorage], and what
    [window.localStorage.getItem(storageKey)] does: throw ([None]), or
    return [null] or a string. *)
Record Storage : Type := {
  hasLocalStorage : bool;
  getItem : option (option string)
}.

(** [array.map(f)] for an [f] that may throw: left to right, stopping at
    the first exception.  The [i]-th call draws its random id and its clock
    reading from [envs i]. *)
Fixpoint mapEnhance (h : Host) (envs : nat -> Env) (i : nat) (gifts : list Gift)
  : Completion (list Gift) :=
  match gifts with
  | [] => Normal []
  | gift :: rest =>
      g <- enhanceGift h (envs i) gift ;;
      gs <- mapEnhance h envs (S i) rest ;;
      Normal (g :: gs)
  end.

(** [enhanceGift(v)] for an element [v] of a parsed array.  Reading a
    property of [null] or [undefined] throws a [TypeError]; a boolean, a
    number or an array has none of the ten properties, own or inherited, and
    is enhanced like the empty object.  A string primitive inherits [link]
    from [String.prototype], a function, which the value model does not
    hold: the answer is [None] there. *)
Definition enhanceElement (h : Host) (env : Env) (v : JsValue)
  : option (Completion Gift) :=
  match v with
  | JsNull | JsUndefined => Some (Throw TypeError)
  | JsObject props => Some (enhanceGift h env props)
  | JsBoolean _ | JsNumber _ | JsArray _ => Some (enhanceGift h env [])
  | JsString _ => None
  end.

(** [parsed.map(enhanceGift)]: [None] when an element outside the model is
    reached before any element throws. *)
Fixpoint enhanceParsed (h : Host) (envs : nat -> Env) (i : nat) (elems : list JsValue)
  : option (Completion (list Gift)) :=
  match elems with
  | [] => Some (Normal [])
  | v :: rest =>
      match enhanceElement h (envs i) v with
      | None => None
      | Some (Throw e) => Some (Throw e)
      | Some (Normal g) =>
          match enhanceParsed h envs (S i) rest with
          | None => None
          | Some (Throw e) => Some (Throw e)
          | Some (Normal gs) => Some (Normal (g :: gs))
          end
      end
  end.

(** [defaultGifts.map((gift) => enhanceGift(gift))]. *)
Definition enhancedDefaults (h : Host) (envs : nat -> Env) : Completion (list Gift) :=
  mapEnhance h envs 0 defaultGifts.

(** [loadGifts()].  Every exception raised inside the [try] block, by
    [getItem], [JSON.parse] or [enhanceGift], is caught and answered with
    the enhanced defaults. *)
Definition loadGifts (ph : PageHost) (h : Host) (envs : nat -> Env) (st : Storage)
  : option (Completion (list Gift)) :=
  if negb (hasLocalStorage st) then Some (enhancedDefaults h envs)
  else
    match getItem st with
    | None => Some (enhancedDefaults h envs)
    | Some None => Some (enhancedDefaults h envs)
    | Some (Some stored) =>
        if stored =? "" then Some (enhancedDefaults h envs)
        else
          match JSON_parse ph stored with
          | None => Some (enhancedDefaults h envs)
          | Some (JsArray elems) =>
              match enhanceParsed h envs 0 elems with
              | None => None
              | Some (Normal gifts) => Some (Normal gifts)
              | Some (Throw _) => Some (enhancedDefaults h envs)
              end
          | Some _ => Some (enhancedDefaults h envs)
          end
    end.

(** [summaryText(count)], for the length of an array. *)
Definition summaryText (count : nat) : string :=
  if (count =? 0)%nat then "No items yet"
  else NilEmpty.string_of_uint (Nat.to_uint count) ++ " "
       ++ (if (count =? 1)%nat then "item" else "items").

(** [grouped[recipient].push(gift)], creating the list when
    [grouped[recipient]] is missing.  [grouped] is looked up by own
    properties: the only keys [renderLists] ever pushes to are the two labels
    [normalizeRecipient] returns, which [grouped] owns from the start. *)
Fixpoint pushTo (grouped : list (string * list Gift)) (recipient : string)
    (gift : Gift) : list (string * list Gift) :=
  match grouped with
  | [] => [(recipient, [gift])]
  | (key, items) :: rest =>
      if key =? recipient then (key, (items ++ [gift])%list) :: rest
      else (key, items) :: pushTo rest recipient gift
  end.

(** The loop of [renderLists]: [grouped] starts with an empty list for each
    of [recipients], and each gift is pushed to the list of
    [normalizeRecipient(gift.recipient)]. *)
Fixpoint groupLoop (h : Host) (grouped : list (string * list Gift))
    (gifts : list Gift) : Completion (list (string * list Gift)) :=
  match gifts with
  | [] => Normal grouped
  | gift :: rest =>
      recipient <- normalizeRecipient h (Get gift "recipient") ;;
      groupLoop h (pushTo grouped recipient gift) rest
  end.

Definition groupGifts (h : Host) (gifts : list Gift)
  : Completion (list (string * list Gift)) :=
  groupLoop h (map (fun key => (key, [])) recipients) gifts.

(** [grouped[recipient] || []]. *)
Fixpoint groupOf (grouped : list (string * list Gift)) (recipient : string)
  : list Gift :=
  match grouped with
  | [] => []
  | (key, items) :: rest => if key =? recipient then items else groupOf rest recipient
  end.

(** The numbers [updateStats] writes to the page. *)
Record Stats : Type := {
  statTotal : Z;
  statPurchased : Z;
  statRemaining : Z;
  statBudget : JsNum
}.

(** [updateStats()]: the four values, before they are written to the
    page.  [sum + gift.price] is the binary64 addition. *)
Definition updateStats (gifts : list Gift) : Stats :=
  let total := Z.of_nat (length gifts) in
  let purchased :=
    Z.of_nat (length (filter (fun gift => ToBoolean (Get gift "purchased")) gifts)) in
  let budget :=
    fold_left (fun sum gift =>
                 match Get gift "price" with
                 | JsNumber price => SFadd 53 1024 sum price
                 | _ => sum
                 end) gifts (S754_zero false) in
  {| statTotal := total;
     statPurchased := purchased;
     statRemaining := Z.max (total - purchased) 0;
     statBudget := budget |}.

(** [gift.key = value] on a plain object: an own property keeps its place,
    a new one is added last. *)
Fixpoint Put (props : list (string * JsValue)) (key : string) (value : JsValue)
  : list (string * JsValue) :=
  match props with
  | [] => [(key, value)]
  | (k, v) :: rest =>
      if k =? key then (k, value) :: rest else (k, v) :: Put rest key value
  end.

(** The click handler of the toggle button:
    [gift.purchased = !gift.purchased]. *)
Definition togglePurchased (gift : Gift) : Gift :=
  Put gift "purchased" (JsBoolean (negb (ToBoolean (Get gift "purchased")))).

(** The fields of the form as [formData.get] returns them: [None] for
    [null] (no such field), a string otherwise. *)
Record FormData : Type := {
  formName : option string;
  formRecipient : option string;
  formCategory : option string;
  formPriority : option string;
  formPrice : option string;
  formLink : option string;
  formNotes : option string
}.

Definition formValue (field : option string) : JsValue :=
  match field with
  | Some s => JsString s
  | None => JsNull
  end.

(** [(formData.get(key) || "").trim()]: [null] and the empty string both
    give [""] before the trim. *)
Definition trimmedOrEmpty (ph : PageHost) (field : option string) : string :=
  match field with
  | Some s => trim ph s
  | None => trim ph ""
  end.

(** [handleSubmit(event)], as far as the gift list goes: the new value of
    [gifts].  [formData.get("name").trim()] throws a [TypeError] when the
    form has no name field.  [env] answers the calls handleSubmit makes
    itself, [env'] those inside [enhanceGift]. *)
Definition handleSubmit (ph : PageHost) (h : Host) (env env' : Env)
    (form : FormData) (gifts : list Gift) : Completion (list Gift) :=
  match formName form with
  | None => Throw TypeError
  | Some rawName =>
      let name := trim ph rawName in
      if name =? "" then Normal gifts
      else
        let id := cryptoRandomId env in
        price <- normalizePrice h (formValue (formPrice form)) ;;
        newGift <- enhanceGift h env'
          [ ("id", JsString id);
            ("name", JsString name);
            ("recipient", formValue (formRecipient form));
            ("category", formValue (formCategory form));
            ("priority", formValue (formPriority form));
            ("price", price);
            ("link", JsString (trimmedOrEmpty ph (formLink form)));
            ("notes", JsString (trimmedOrEmpty ph (formNotes form)));
            ("purchased", JsBoolean false);
            ("added", JsString (nowISO env)) ] ;;
        Normal (newGift :: gifts)
  end.

(** [handleReset()] once the user has confirmed: the new value of
    [gifts]. *)
Definition handleReset (h : Host) (envs : nat -> Env) : Completion (list Gift) :=
  enhancedDefaults h envs.

(** The arithmetic of [tick] in [setupCountdown], on
    [diff = targetDate.getTime() - now.getTime()]: the days, hours and
    minutes shown.  [Math.floor(x / y)] is the floor of the exact quotient
    for the integers that occur (below 2^53, quotients far from the next
    integer by at least 1/60000), and [%] is the remainder with the sign of
    the dividend. *)
Definition countdownParts (diff : Z) : Z * Z * Z :=
  let minutes := (diff / (1000 * 60))%Z in
  let days := (minutes / (60 * 24))%Z in
  let hours := ((minutes - days * 24 * 60) / 60)%Z in
  let remainingMinutes := Z.rem minutes 60 in
  (days, hours, remainingMinutes).

(** [String(n).padStart(2, "0")] for an integer [n]. *)
Definition padStart2 (n : Z) : string :=
  let s := NilZero.string_of_int (Z.to_int n) in
  if (String.length s <? 2)%nat then "0" ++ s else s.

(** What [tick] writes: the three parts, padded. *)
Definition countdownText (diff : Z) : string * string * string :=
  let '(days, hours, remainingMinutes) := countdownParts diff in
  (padStart2 days, padStart2 hours, padStart2 remainingMinutes).

(** The form of the object literal [enhanceGift] returns: the ten
    properties in order, [id] and [recipient] strings, [recipient] one of the
    two labels, [price] null or a finite number, [purchased] a boolean, and
    each defaulted property truthy or equal to its (empty) default. *)
Definition enhanced (g : Gift) : Prop :=
  exists id name recipient category priority price link notes purchased added,
    g = [ ("id", JsString id);
          ("name", name);
          ("recipient", JsString recipient);
          ("category", category);
          ("priority", priority);
          ("price", price);
          ("link", link);
          ("notes", notes);
          ("purchased", JsBoolean purchased);
          ("added", added) ]
    /\ ToBoolean name = true
    /\ (recipient = "wife" \/ recipient = "kids")
    /\ ToBoolean category = true
    /\ ToBoolean priority = true
    /\ (price = JsNull \/ exists n, price = JsNumber n /\ Number_isFinite n = true)
    /\ (ToBoolean link = true \/ link = JsString "")
    /\ (ToBoolean notes = true \/ notes = JsString "").

(** An enhanced gift whose [id] and [added] are truthy, as they are when
    the random id and the clock reading are not empty. *)
Definition settled (g : Gift) : Prop :=
  enhanced g
  /\ ToBoolean (Get g "id") = true
  /\ ToBoolean (Get g "added") = true.

(** Whether [renderLists] pushes [gift] to the list of [key]. *)
Definition goesTo (h : Host) (key : string) (gift : Gift) : bool :=
  match normalizeRecipient h (Get gift "recipient") with
  | Normal recipient => recipient =? key
  | Throw _ => false
  end.

(** Strings without a space, as the decimal digits of a count are. *)
Fixpoint noSpace (s : string) : bool :=
  match s with
  | EmptyString => true
  | String c rest => negb (Ascii.eqb c " ") && noSpace rest
  end.

End GiftPage.

(** A page host to run the page functions on. *)
Module ExamplePage.
Import Js GiftRegistry GiftPage.

(** The white space of ASCII: tab, line feed, vertical tab, form feed,
    carriage return and space. *)
Definition isAsciiSpace (c : ascii) : bool :=
  let n := nat_of_ascii c in
  ((9 <=? n)%nat && (n <=? 13)%nat) || (n =? 32)%nat.

Fixpoint trimStart (s : string) : string :=
  match s with
  | String c rest => if isAsciiSpace c then trimStart rest else s
  | EmptyString => EmptyString
  end.

Fixpoint trimEnd (s : string) : string :=
  match s with
  | EmptyString => EmptyString
  | String c rest =>
      match trimEnd rest with
      | EmptyString => if isAsciiSpace c then EmptyString else String c EmptyString
      | rest' => String c rest'
      end
  end.

(** A browser whose [JSON.parse] reads [text] as [value] and rejects every
    other text, with [trim] on ASCII white space. *)
Definition hostParsing (text : string) (value : JsValue) : PageHost :=
  {| JSON_parse := fun t => if t =? text then Some value else None;
     trim := fun s => trimEnd (trimStart s) |}.

End ExamplePage.

(* ================================================================== *)
(** * Properties of the gift registry script *)
(* ================================================================== *)

Module GiftRegistryFacts.
Import Js GiftRegistry.

Example numberOfZ_95 :
  ExampleHost.numberOfZ 95 = S754_finite false 6685030696878080 (-46).
Proof. vm_compute. reflexivity. Qed.

Example price_string_42 :
  normalizePrice ExampleHost.host (JsString "42")
  = Normal (JsNumber (ExampleHost.numberOfZ 42)).
Proof. vm_compute. reflexivity. Qed.

Example recipient_upper : normalizeRecipient ExampleHost.host (JsString "SpOuSe") = Normal "wife".
Proof. reflexivity. Qed.

Example recipient_number :
  normalizeRecipient ExampleHost.host (JsNumber (ExampleHost.numberOfZ 7)) = Normal "kids".
Proof. vm_compute. reflexivity. Qed.

Example recipient_array :
  normalizeRecipient ExampleHost.host (JsArray [JsString "Mom"]) = Normal "wife".
Proof. reflexivity. Qed.

(** ** Conversions *)

Lemma JsValue_nested_ind (P : JsValue -> Prop) :
  P JsUndefined -> P JsNull ->
  (forall b, P (JsBoolean b)) ->
  (forall n, P (JsNumber n)) ->
  (forall s, P (JsString s)) ->
  (forall elems, Forall P elems -> P (JsArray elems)) ->
  (forall props, P (JsObject props)) ->
  forall v, P v.
Proof.
  intros Hu Hn Hb Hnum Hs Ha Ho.
  fix IH 1.
  intros [ | | b | n | s | elems | props];
    [exact Hu | exact Hn | apply Hb | apply Hnum | apply Hs | | apply Ho].
  apply Ha.
  induction elems as [|x xs IHxs]; constructor; [apply IH | exact IHxs].
Qed.

Lemma bind_Normal {A B} (c : Completion A) (k : A -> Completion B) (b : B) :
  bind c k = Normal b <-> exists a, c = Normal a /\ k a = Normal b.
Proof.
  destruct c as [a|e]; simpl; split.
  - intros H; exists a; auto.
  - intros (a' & Ha & Hk); inversion Ha; subst; exact Hk.
  - discriminate.
  - intros (a' & Ha & _); discriminate.
Qed.

Lemma bind_Throw {A B} (c : Completion A) (k : A -> Completion B) (e : JsError) :
  bind c k = Throw e <-> c = Throw e \/ exists a, c = Normal a /\ k a = Throw e.
Proof.
  destruct c as [a|e']; simpl; split.
  - intros H; right; exists a; auto.
  - intros [H | (a' & Ha & Hk)]; [discriminate | inversion Ha; subst; exact Hk].
  - intros H; left; congruence.
  - intros [H | (a' & Ha & _)]; [congruence | discriminate].
Qed.

Lemma completion_cases {A} (c : Completion A) :
  (exists a, c = Normal a) \/ c = Throw TypeError.
Proof. destruct c as [a|[]]; [left; exists a; reflexivity | right; reflexivity]. Qed.

Lemma joinWith_throws (conv : JsValue -> Completion string) (elems : list JsValue) :
  Forall (fun x => conv x = Throw TypeError <-> hidesToString x = true) elems ->
  (joinWith conv elems = Throw TypeError <-> existsb hidesToString elems = true).
Proof.
  induction 1 as [|x rest Hx Hrest IH]; simpl.
  - split; discriminate.
  - set (first := match x with
                  | JsUndefined | JsNull => Normal ""
                  | _ => conv x
                  end).
    assert (Hfirst : first = Throw TypeError <-> hidesToString x = true).
    { subst first; destruct x; simpl in *; try exact Hx; split; discriminate. }
    rewrite orb_true_iff, <- Hfirst.
    destruct first as [s|[]]; simpl.
    + destruct rest as [|y rest'].
      * simpl. intuition discriminate.
      * rewrite <- IH.
        destruct (joinWith conv (y :: rest')) as [r|[]]; simpl;
          intuition discriminate.
    + intuition.
Qed.

(** [String(v)] throws exactly on the values that hide [toString]. *)
Lemma ToString_throws (h : Host) (v : JsValue) :
  ToString h v = Throw TypeError <-> hidesToString v = true.
Proof.
  induction v as [ | | b | n | s | elems IH | props] using JsValue_nested_ind;
    simpl; try (split; discriminate).
  - apply joinWith_throws. exact IH.
  - destruct (hasOwn "toString" props); split; auto; discriminate.
Qed.

Lemma ToString_primitive (h : Host) (v : JsValue) :
  isPrimitive v = true -> exists s, ToString h v = Normal s.
Proof. destruct v; simpl; try discriminate; eauto. Qed.

Lemma ToString_string (h : Host) (s : string) :
  ToString h (js_or (JsString s) (JsString "")) = Normal s.
Proof.
  unfold js_or; simpl. destruct (String.eqb_spec s ""); simpl; congruence.
Qed.

Lemma hidesToString_js_or (v : JsValue) (s : string) :
  hidesToString (js_or v (JsString s)) = hidesToString v.
Proof.
  unfold js_or. destruct (ToBoolean v) eqn:Hv; [reflexivity|].
  destruct v; simpl in *; try reflexivity; discriminate.
Qed.

(** ** normalizeRecipient *)

(** The switch has two outcomes: the three words of its first group give
    "wife", every other string gives "kids". *)
Lemma normalizeRecipient_unfold (h : Host) (value : JsValue) :
  normalizeRecipient h value =
  (s <- ToString h (js_or value (JsString "")) ;;
   Normal (if (toLowerCase s =? "wife") || (toLowerCase s =? "mom")
              || (toLowerCase s =? "spouse")
           then "wife" else "kids")).
Proof.
  unfold normalizeRecipient.
  destruct (ToString h (js_or value (JsString ""))) as [s|e]; simpl; [|reflexivity].
  destruct ((toLowerCase s =? "wife") || (toLowerCase s =? "mom")
            || (toLowerCase s =? "spouse")); [reflexivity|].
  destruct ((toLowerCase s =? "kid") || (toLowerCase s =? "kids")
            || (toLowerCase s =? "child") || (toLowerCase s =? "children")
            || (toLowerCase s =? "son") || (toLowerCase s =? "daughter"));
    [reflexivity|].
  destruct (toLowerCase s =? "dad"); reflexivity.
Qed.

Lemma wife_words (s : string) :
  (s =? "wife") || (s =? "mom") || (s =? "spouse") = true
  <-> s = "wife" \/ s = "mom" \/ s = "spouse".
Proof.
  rewrite !orb_true_iff, !String.eqb_eq. tauto.
Qed.

Lemma normalizeRecipient_of_string (h : Host) (value : JsValue) (s : string) :
  ToString h (js_or value (JsString "")) = Normal s ->
  (normalizeRecipient h value = Normal "wife"
   <-> toLowerCase s = "wife" \/ toLowerCase s = "mom" \/ toLowerCase s = "spouse")
  /\ (normalizeRecipient h value = Normal "kids"
      <-> ~ (toLowerCase s = "wife" \/ toLowerCase s = "mom" \/ toLowerCase s = "spouse")).
Proof.
  intros Hs. rewrite normalizeRecipient_unfold, Hs. simpl.
  rewrite <- wife_words.
  destruct ((toLowerCase s =? "wife") || (toLowerCase s =? "mom")
            || (toLowerCase s =? "spouse")); split; split;
    try reflexivity; try discriminate; try congruence; intros H; exfalso; auto.
Qed.

Lemma normalizeRecipient_range (h : Host) (value : JsValue) (r : string) :
  normalizeRecipient h value = Normal r -> r = "wife" \/ r = "kids".
Proof.
  intros Hr. rewrite normalizeRecipient_unfold in Hr.
  apply bind_Normal in Hr. destruct Hr as (s & _ & Hr).
  injection Hr as <-.
  destruct ((toLowerCase s =? "wife") || (toLowerCase s =? "mom")
            || (toLowerCase s =? "spouse")); auto.
Qed.

Lemma normalizeRecipient_throws (h : Host) (value : JsValue) :
  normalizeRecipient h value = Throw TypeError <-> hidesToString value = true.
Proof.
  rewrite normalizeRecipient_unfold, bind_Throw, ToString_throws, hidesToString_js_or.
  split; [intros [H | (s & _ & H)]; [exact H | discriminate] | auto].
Qed.

(** C8, as amended.  [normalizeRecipient] answers "wife" or "kids" and
    nothing else.  It answers on every value that does not hide [toString],
    so on every primitive (undefined, null, booleans, numbers, strings), and
    throws a [TypeError] exactly on the values that hide it.  Every falsy
    value (the empty string, null, undefined among them) and "dad" give
    "kids".  The answer is "wife" exactly when the lower-cased
    [String(value || "")] is "wife", "mom" or "spouse", and "kids" for every
    other string; for a string argument this is the spelling of one of the
    three words in any mix of cases. *)
Theorem normalizeRecipient_wife_or_kids (h : Host) (value : JsValue) :
  (forall r, normalizeRecipient h value = Normal r -> r = "wife" \/ r = "kids")
  /\ (normalizeRecipient h value = Throw TypeError <-> hidesToString value = true)
  /\ (hidesToString value = false -> exists r, normalizeRecipient h value = Normal r)
  /\ (isPrimitive value = true -> hidesToString value = false)
  /\ (ToBoolean value = false -> normalizeRecipient h value = Normal "kids")
  /\ normalizeRecipient h (JsString "dad") = Normal "kids"
  /\ (forall s, ToString h (js_or value (JsString "")) = Normal s ->
        (normalizeRecipient h value = Normal "wife"
         <-> toLowerCase s = "wife" \/ toLowerCase s = "mom" \/ toLowerCase s = "spouse")
        /\ (normalizeRecipient h value = Normal "kids"
            <-> ~ (toLowerCase s = "wife" \/ toLowerCase s = "mom"
                   \/ toLowerCase s = "spouse")))
  /\ (forall s, normalizeRecipient h (JsString s) = Normal "wife"
        <-> toLowerCase s = "wife" \/ toLowerCase s = "mom" \/ toLowerCase s = "spouse").
Proof.
  split; [|split; [|split; [|split; [|split; [|split; [|split]]]]]].
  - intros r. apply normalizeRecipient_range.
  - apply normalizeRecipient_throws.
  - intros Hv.
    destruct (completion_cases (normalizeRecipient h value)) as [Hr | Ht]; [exact Hr|].
    apply normalizeRecipient_throws in Ht. congruence.
  - destruct value; simpl; try reflexivity; discriminate.
  - intros Hv. rewrite normalizeRecipient_unfold.
    unfold js_or. rewrite Hv. reflexivity.
  - reflexivity.
  - intros s Hs. apply normalizeRecipient_of_string; exact Hs.
  - intros s. apply (normalizeRecipient_of_string h (JsString s) s), ToString_string.
Qed.

(** C8 as stated fails: an object with an own [toString] property makes
    [String(value || "")] throw, so [normalizeRecipient] returns neither
    label; and a value that is not one of the three words, the array
    [["Mom"]], maps to "wife". *)
Lemma normalizeRecipient_not_total :
  normalizeRecipient ExampleHost.host (JsObject [("toString", JsNumber js_one)])
  = Throw TypeError
  /\ normalizeRecipient ExampleHost.host (JsArray [JsString "Mom"]) = Normal "wife".
Proof. split; reflexivity. Qed.

(** ** normalizePrice *)

Lemma normalizePrice_throws (h : Host) (value : JsValue) :
  normalizePrice h value = Throw TypeError <-> hidesToString value = true.
Proof.
  destruct value as [ | | b | n | s | elems | props];
    try (simpl; split; discriminate).
  - destruct s; simpl; split; discriminate.
  - rewrite <- ToString_throws with (h := h).
    unfold normalizePrice, ToNumber. rewrite !bind_Throw.
    split.
    + intros [[H | (s & _ & H)] | (n & _ & H)]; [exact H | discriminate | discriminate].
    + auto.
  - rewrite <- ToString_throws with (h := h).
    unfold normalizePrice, ToNumber. rewrite !bind_Throw.
    split.
    + intros [[H | (s & _ & H)] | (n & _ & H)]; [exact H | discriminate | discriminate].
    + auto.
Qed.

Lemma normalizePrice_range (h : Host) (value r : JsValue) :
  normalizePrice h value = Normal r ->
  r = JsNull \/ exists n, r = JsNumber n /\ Number_isFinite n = true.
Proof.
  assert (Hfin : forall n, (if Number_isFinite n then JsNumber n else JsNull) = r ->
                 r = JsNull \/ exists n, r = JsNumber n /\ Number_isFinite n = true).
  { intros n <-. destruct (Number_isFinite n) eqn:Hn; eauto. }
  assert (Hconv : (parsed <- ToNumber h value ;;
                   Normal (if Number_isFinite parsed then JsNumber parsed else JsNull))
                  = Normal r ->
                  r = JsNull \/ exists n, r = JsNumber n /\ Number_isFinite n = true).
  { intros H. apply bind_Normal in H. destruct H as (n & _ & H).
    injection H as H. eauto. }
  destruct value as [ | | b | n | s | elems | props]; simpl.
  - intros H; injection H as <-; auto.
  - intros H; injection H as <-; auto.
  - exact Hconv.
  - intros H; injection H as H; eauto.
  - destruct s; [intros H; injection H as <-; auto | exact Hconv].
  - exact Hconv.
  - exact Hconv.
Qed.

(** C10, as amended.  [normalizePrice] never returns NaN or an infinity:
    whatever it returns is null or a finite number.  It returns on every
    value that does not hide [toString], so on every primitive, and throws a
    [TypeError] exactly on the values that hide it.  NaN, the infinities,
    null, undefined, the empty string and every string that [Number] reads
    as NaN give null; a finite number is returned unchanged. *)
Theorem normalizePrice_finite_or_null (h : Host) (value : JsValue) :
  (forall r, normalizePrice h value = Normal r ->
     r = JsNull \/ exists n, r = JsNumber n /\ Number_isFinite n = true)
  /\ (normalizePrice h value = Throw TypeError <-> hidesToString value = true)
  /\ (hidesToString value = false -> exists r, normalizePrice h value = Normal r)
  /\ (isPrimitive value = true -> hidesToString value = false)
  /\ normalizePrice h (JsNumber S754_nan) = Normal JsNull
  /\ (forall sign, normalizePrice h (JsNumber (S754_infinity sign)) = Normal JsNull)
  /\ normalizePrice h JsNull = Normal JsNull
  /\ normalizePrice h JsUndefined = Normal JsNull
  /\ normalizePrice h (JsString "") = Normal JsNull
  /\ (forall s, StringToNumber h s = S754_nan ->
        normalizePrice h (JsString s) = Normal JsNull)
  /\ (forall n, Number_isFinite n = true ->
        normalizePrice h (JsNumber n) = Normal (JsNumber n)).
Proof.
  split; [|split; [|split; [|split]]].
  - apply normalizePrice_range.
  - apply normalizePrice_throws.
  - intros Hv.
    destruct (completion_cases (normalizePrice h value)) as [Hr | Ht]; [exact Hr|].
    apply normalizePrice_throws in Ht. congruence.
  - destruct value; simpl; try reflexivity; discriminate.
  - repeat split; try reflexivity.
    + intros s Hs. destruct s; simpl; [reflexivity|].
      simpl in Hs. rewrite Hs. reflexivity.
    + intros n Hn. simpl. rewrite Hn. reflexivity.
Qed.

(** C10 as stated fails: on an object with an own [toString] property
    [Number(value)] throws, and [normalizePrice] returns nothing. *)
Lemma normalizePrice_not_total :
  normalizePrice ExampleHost.host (JsObject [("toString", JsNull)]) = Throw TypeError
  /\ normalizePrice ExampleHost.host (JsArray [JsObject [("toString", JsNull)]])
     = Throw TypeError.
Proof. split; reflexivity. Qed.

(** ** enhanceGift *)

Lemma js_or_idem (x d : JsValue) : js_or (js_or x d) d = js_or x d.
Proof.
  unfold js_or. destruct (ToBoolean x) eqn:Hx; [rewrite Hx; reflexivity|].
  destruct (ToBoolean d); reflexivity.
Qed.

Lemma js_or_truthy_default (x d d' : JsValue) :
  ToBoolean d = true -> js_or (js_or x d) d' = js_or x d.
Proof.
  intros Hd. unfold js_or.
  destruct (ToBoolean x) eqn:Hx; [rewrite Hx|rewrite Hd]; reflexivity.
Qed.

Lemma ToBoolean_string (s : string) : s <> "" -> ToBoolean (JsString s) = true.
Proof. intros Hs. simpl. destruct (String.eqb_spec s ""); [contradiction|reflexivity]. Qed.

Lemma normalizeRecipient_fixed (h : Host) (r : string) :
  r = "wife" \/ r = "kids" -> normalizeRecipient h (JsString r) = Normal r.
Proof. intros [-> | ->]; reflexivity. Qed.

Lemma normalizePrice_fixed (h : Host) (r : JsValue) :
  (r = JsNull \/ exists n, r = JsNumber n /\ Number_isFinite n = true) ->
  normalizePrice h r = Normal r.
Proof.
  intros [-> | (n & -> & Hn)]; simpl; [reflexivity|]. rewrite Hn. reflexivity.
Qed.

Lemma Get_cons_ne (k key : string) (v : JsValue) (rest : list (string * JsValue)) :
  key <> k -> Get ((k, v) :: rest) key = Get rest key.
Proof.
  intros Hk. simpl. destruct (String.eqb_spec k key); [congruence|reflexivity].
Qed.

(** C9, as amended.  Let [g] be a gift returned by [enhanceGift], built at
    a moment whose ISO timestamp is not empty.  Then [enhanceGift] returns
    on [g], and what it returns agrees with [g] on every property other than
    [id].  It is [g] itself when the [id] of [g] is not the empty string,
    as it is when the source gift had a non-empty string [id]; when the [id]
    of [g] is the empty string, the second pass replaces it by a fresh
    random id. *)
Theorem enhanceGift_idempotent (h : Host) (env1 env2 : Env)
    (gift g : list (string * JsValue)) :
  enhanceGift h env1 gift = Normal g ->
  nowISO env1 <> "" ->
  exists g', enhanceGift h env2 g = Normal g'
    /\ (forall key, key <> "id" -> Get g' key = Get g key)
    /\ (Get g "id" <> JsString "" -> g' = g)
    /\ (Get g "id" = JsString "" -> Get g' "id" = JsString (cryptoRandomId env2))
    /\ (forall s, Get gift "id" = JsString s -> s <> "" -> g' = g).
Proof.
  intros Hg Hnow. unfold enhanceGift in Hg.
  apply bind_Normal in Hg. destruct Hg as (id & Hid & Hg).
  apply bind_Normal in Hg. destruct Hg as (rc & Hrc & Hg).
  apply bind_Normal in Hg. destruct Hg as (pr & Hpr & Hg).
  injection Hg as <-.
  pose proof (normalizeRecipient_range h _ _ Hrc) as Hrange.
  apply normalizePrice_range in Hpr.
  set (id' := if id =? "" then cryptoRandomId env2 else id).
  assert (H1 : ToString h (js_or (JsString id) (JsString (cryptoRandomId env2)))
               = Normal id').
  { unfold js_or, id'. simpl. destruct (id =? ""); reflexivity. }
  eexists. split.
  { unfold enhanceGift. simpl Get.
    rewrite H1, (normalizeRecipient_fixed h rc Hrange), (normalizePrice_fixed h pr Hpr).
    simpl bind.
    rewrite !js_or_idem.
    rewrite (js_or_truthy_default _ (JsString (nowISO env1)))
      by (apply ToBoolean_string; exact Hnow).
    reflexivity. }
  assert (Hsame : id <> "" -> id' = id).
  { intros Hne. unfold id'. destruct (String.eqb_spec id ""); [contradiction|reflexivity]. }
  split; [|split; [|split]].
  - intros key Hkey. rewrite Get_cons_ne by exact Hkey.
    symmetry. rewrite Get_cons_ne by exact Hkey. reflexivity.
  - simpl Get. intros Hne. rewrite Hsame; [reflexivity|]. congruence.
  - simpl Get. intros Hempty. injection Hempty as ->. reflexivity.
  - intros s Hs Hne. rewrite Hs in Hid.
    unfold js_or in Hid. rewrite (ToBoolean_string s Hne) in Hid.
    simpl in Hid. injection Hid as <-. rewrite Hsame; [reflexivity | exact Hne].
Qed.

(** C9 as stated fails.  The gift whose [id] is the empty array is enhanced
    to a gift with the empty string as [id] ([String([])] is [""]), and
    enhancing that gift again gives it a random id. *)
Lemma enhanceGift_not_idempotent :
  exists g1 g2,
    enhanceGift ExampleHost.host ExampleHost.env [("id", JsArray [])] = Normal g1
    /\ enhanceGift ExampleHost.host ExampleHost.env g1 = Normal g2
    /\ Get g1 "id" = JsString ""
    /\ Get g2 "id" = JsString "3b241101-e2bb-4255-8caf-4136c566a962".
Proof. do 2 eexists. repeat split; reflexivity. Qed.

(** The first starter gift is already in enhanced form. *)
Lemma enhanceGift_idempotent_witness :
  exists g', enhanceGift ExampleHost.host ExampleHost.env ExampleHost.gift_w_1 = Normal g'
    /\ (forall key, key <> "id" -> Get g' key = Get ExampleHost.gift_w_1 key)
    /\ (Get ExampleHost.gift_w_1 "id" <> JsString "" -> g' = ExampleHost.gift_w_1)
    /\ (Get ExampleHost.gift_w_1 "id" = JsString ""
        -> Get g' "id" = JsString (cryptoRandomId ExampleHost.env))
    /\ (forall s, Get ExampleHost.gift_w_1 "id" = JsString s -> s <> ""
        -> g' = ExampleHost.gift_w_1).
Proof.
  apply (enhanceGift_idempotent ExampleHost.host ExampleHost.env ExampleHost.env
           ExampleHost.gift_w_1 ExampleHost.gift_w_1).
  - vm_compute. reflexivity.
  - discriminate.
Defined.

End GiftRegistryFacts.

(* ================================================================== *)
(** * Properties of the Feedback Adjuster *)
(* ================================================================== *)

Module FeedbackFacts.
Import Miner.
Local Open Scope Q_scope.

Lemma key_eqb_refl (k : PatternKey) : key_eqb k k = true.
Proof. unfold key_eqb. rewrite !String.eqb_refl. reflexivity. Qed.

Lemma lookup_update (key : PatternKey) (s0 s : PatternStats) (store : PatternStore) :
  lookup key store = Some s0 -> lookup key (update key s store) = Some s.
Proof.
  induction store as [|[k s1] rest IH]; simpl; [discriminate|].
  destruct (key_eqb k key) eqn:Hk; simpl; rewrite Hk; auto.
Qed.

Lemma recordTimes_weight (n : nat) (key : PatternKey) (d : Decision) :
  forall (store : PatternStore) (s : PatternStats),
    lookup key store = Some s ->
    exists store',
      recordTimes n key d store = Recorded store'
      /\ lookup key store'
         = Some (withWeight s (Nat.iter n (adjust d) (feedbackWeight s))).
Proof.
  induction n as [|n IH]; intros store s Hs.
  - exists store. split; [reflexivity|]. rewrite Hs. destruct s; reflexivity.
  - simpl recordTimes. unfold record. rewrite Hs.
    destruct (IH _ _ (lookup_update key s
                        (withWeight s (adjust d (feedbackWeight s))) store Hs))
      as (store' & Hrec & Hlook).
    exists store'. split; [exact Hrec|].
    rewrite Hlook. simpl feedbackWeight.
    rewrite Nat.iter_succ_r. reflexivity.
Qed.

Lemma weightAfter_iter (n : nat) (key : PatternKey) (d : Decision)
    (store : PatternStore) (s : PatternStats) :
  lookup key store = Some s ->
  weightAfter n key d store = Some (Nat.iter n (adjust d) (feedbackWeight s)).
Proof.
  intros Hs. unfold weightAfter.
  destruct (recordTimes_weight n key d store s Hs) as (store' & -> & ->).
  reflexivity.
Qed.

Lemma dismiss_floor (w : Q) : 1 # 10 <= adjust Dismissed w.
Proof. simpl. apply Q.le_max_l. Qed.

Lemma dismiss_le (w : Q) : 1 # 10 <= w -> adjust Dismissed w <= w.
Proof.
  intros Hw. simpl.
  destruct (Q.max_spec (1 # 10) (w * (8 # 10))) as [[H1 H2]|[H1 H2]]; lra.
Qed.

Lemma dismiss_at_floor (w : Q) : w == 1 # 10 -> adjust Dismissed w == 1 # 10.
Proof.
  intros Hw. simpl.
  destruct (Q.max_spec (1 # 10) (w * (8 # 10))) as [[H1 H2]|[H1 H2]]; lra.
Qed.

Lemma dismiss_iter_floor (n : nat) (w : Q) :
  1 # 10 <= w -> 1 # 10 <= Nat.iter n (adjust Dismissed) w.
Proof.
  intros Hw. destruct n as [|n]; [exact Hw|]. apply dismiss_floor.
Qed.

(** After [n] dismissals the weight is [max(0.1, w * 0.8^n)]. *)
Lemma dismiss_closed (n : nat) (w : Q) :
  1 # 10 <= w ->
  Nat.iter n (adjust Dismissed) w == Qmax (1 # 10) (w * pow08 n).
Proof.
  intros Hw. induction n as [|n IH]; simpl.
  - destruct (Q.max_spec (1 # 10) (w * 1)) as [[H1 H2]|[H1 H2]]; lra.
  - destruct (Q.max_spec (1 # 10) (Nat.iter n (adjust Dismissed) w * (8 # 10)))
      as [[H1 H2]|[H1 H2]];
    destruct (Q.max_spec (1 # 10) (w * pow08 n)) as [[H3 H4]|[H3 H4]];
    destruct (Q.max_spec (1 # 10) (w * ((8 # 10) * pow08 n))) as [[H5 H6]|[H5 H6]];
    lra.
Qed.

Lemma dismiss_from_14 (n : nat) (w : Q) :
  1 # 10 <= w -> w <= 2 -> (14 <= n)%nat ->
  Nat.iter n (adjust Dismissed) w == 1 # 10.
Proof.
  intros Hlo Hhi Hn.
  induction Hn as [|m Hm IH].
  - rewrite dismiss_closed by exact Hlo.
    destruct (Q.max_spec (1 # 10) (w * pow08 14)) as [[H1 H2]|[H1 H2]];
      simpl in *; lra.
  - simpl. apply dismiss_at_floor. exact IH.
Qed.

(** C5, as amended.  For a stored pattern whose feedbackWeight [w] lies in
    [[0.1, 2.0]]: five consecutive Dismissed leave the weight at
    [max(0.1, w * 0.32768)], which is the floor 0.1 exactly when
    [w <= 3125/10240] (about 0.305); fourteen or more consecutive Dismissed
    leave it at the floor 0.1; and every further Dismissed keeps it at or
    above 0.1 and never raises it. *)
Theorem dismissed_weight_floor (store : PatternStore) (key : PatternKey)
    (s : PatternStats) :
  lookup key store = Some s ->
  1 # 10 <= feedbackWeight s ->
  feedbackWeight s <= 2 ->
  (exists w5, weightAfter 5 key Dismissed store = Some w5
     /\ w5 == Qmax (1 # 10) (feedbackWeight s * (32768 # 100000))
     /\ (w5 == 1 # 10 <-> feedbackWeight s <= 3125 # 10240))
  /\ (forall n, (14 <= n)%nat ->
        exists wn, weightAfter n key Dismissed store = Some wn /\ wn == 1 # 10)
  /\ (forall n, exists wn wn',
        weightAfter n key Dismissed store = Some wn
        /\ weightAfter (S n) key Dismissed store = Some wn'
        /\ 1 # 10 <= wn' /\ wn' <= wn).
Proof.
  intros Hs Hlo Hhi. split; [|split].
  - exists (Nat.iter 5 (adjust Dismissed) (feedbackWeight s)).
    split; [apply weightAfter_iter; exact Hs|].
    pose proof (dismiss_closed 5 (feedbackWeight s) Hlo) as H5.
    destruct (Q.max_spec (1 # 10) (feedbackWeight s * pow08 5)) as [[H1 H2]|[H1 H2]];
    destruct (Q.max_spec (1 # 10) (feedbackWeight s * (32768 # 100000)))
      as [[H3 H4]|[H3 H4]];
      simpl in *; (split; [lra | split; intros; lra]).
  - intros n Hn. exists (Nat.iter n (adjust Dismissed) (feedbackWeight s)).
    split; [apply weightAfter_iter; exact Hs|].
    apply dismiss_from_14; assumption.
  - intros n.
    exists (Nat.iter n (adjust Dismissed) (feedbackWeight s)).
    exists (Nat.iter (S n) (adjust Dismissed) (feedbackWeight s)).
    split; [apply weightAfter_iter; exact Hs|].
    split; [apply weightAfter_iter; exact Hs|].
    split; [apply dismiss_floor|].
    apply dismiss_le, dismiss_iter_floor, Hlo.
Qed.

(** A store with one pattern at the neutral weight 1. *)
Lemma dismissed_weight_floor_witness :
  (exists w5, weightAfter 5 ("A", "B") Dismissed
                (ExampleMiner.store 1)
              = Some w5
     /\ w5 == Qmax (1 # 10) (1 * (32768 # 100000))
     /\ (w5 == 1 # 10 <-> 1 <= 3125 # 10240))
  /\ (forall n, (14 <= n)%nat ->
        exists wn, weightAfter n ("A", "B") Dismissed
                     (ExampleMiner.store 1)
                   = Some wn /\ wn == 1 # 10)
  /\ (forall n, exists wn wn',
        weightAfter n ("A", "B") Dismissed
          (ExampleMiner.store 1) = Some wn
        /\ weightAfter (S n) ("A", "B") Dismissed
             (ExampleMiner.store 1) = Some wn'
        /\ 1 # 10 <= wn' /\ wn' <= wn).
Proof.
  apply (dismissed_weight_floor
           (ExampleMiner.store 1)
           ("A", "B")
           {| antecedentCount := 3; episodeCount := 3;
              lastSeenAt := 140; feedbackWeight := 1 |}).
  - reflexivity.
  - simpl. lra.
  - simpl. lra.
Defined.

(** C5 as stated fails: from the weight 1, and from the weight 2, five
    consecutive Dismissed leave the weight above the floor 0.1. *)
Lemma five_dismissals_above_floor :
  (exists w5, weightAfter 5 ("A", "B") Dismissed
                (ExampleMiner.store 1)
              = Some w5
     /\ w5 == 32768 # 100000 /\ ~ w5 == 1 # 10)
  /\ (exists w5, weightAfter 5 ("A", "B") Dismissed
                   (ExampleMiner.store 2)
                 = Some w5
        /\ w5 == 65536 # 100000 /\ ~ w5 == 1 # 10).
Proof.
  split; eexists; (split; [vm_compute; reflexivity|]); split;
    vm_compute; congruence.
Qed.

End FeedbackFacts.


(* ================================================================== *)
(** * Properties of the page around the normalisers *)
(* ================================================================== *)

Module GiftPageFacts.
Import Js GiftRegistry GiftPage GiftRegistryFacts.

(** ** The normalisers compose *)

(** X1.  Both normalisers are idempotent: a price that [normalizePrice] returned
    is returned unchanged by a second call (handleSubmit normalises the
    price and enhanceGift normalises it again), and a label that
    [normalizeRecipient] returned is its own label (renderLists normalises
    the recipient of gifts that enhanceGift already normalised). *)
Theorem normalisers_idempotent (h : Host) (value : JsValue) :
  (forall price, normalizePrice h value = Normal price ->
                 normalizePrice h price = Normal price)
  /\ (forall label, normalizeRecipient h value = Normal label ->
                    normalizeRecipient h (JsString label) = Normal label).
Proof.
  split.
  - intros price Hp. apply normalizePrice_fixed, (normalizePrice_range h value). exact Hp.
  - intros label Hl. apply normalizeRecipient_fixed, (normalizeRecipient_range h value).
    exact Hl.
Qed.

(** ** The form of an enhanced gift *)

Lemma js_or_truthy (x d : JsValue) :
  ToBoolean d = true -> ToBoolean (js_or x d) = true.
Proof. intros Hd. unfold js_or. destruct (ToBoolean x) eqn:Hx; [exact Hx | exact Hd]. Qed.

Lemma js_or_empty (x : JsValue) :
  ToBoolean (js_or x (JsString "")) = true \/ js_or x (JsString "") = JsString "".
Proof. unfold js_or. destruct (ToBoolean x) eqn:Hx; [left; exact Hx | right; reflexivity]. Qed.

Lemma cryptoRandomId_fallback (env : Env) :
  randomUUID env = None -> cryptoRandomId env <> "".
Proof. unfold cryptoRandomId. intros ->. discriminate. Qed.

Lemma enhanceGift_fields (h : Host) (env : Env) (gift g : Gift) :
  enhanceGift h env gift = Normal g ->
  exists id recipient price,
    ToString h (js_or (Get gift "id") (JsString (cryptoRandomId env))) = Normal id
    /\ normalizeRecipient h (Get gift "recipient") = Normal recipient
    /\ normalizePrice h (Get gift "price") = Normal price
    /\ g = [ ("id", JsString id);
             ("name", js_or (Get gift "name") (JsString "Untitled gift"));
             ("recipient", JsString recipient);
             ("category", js_or (Get gift "category") (JsString "experience"));
             ("priority", js_or (Get gift "priority") (JsString "Medium"));
             ("price", price);
             ("link", js_or (Get gift "link") (JsString ""));
             ("notes", js_or (Get gift "notes") (JsString ""));
             ("purchased", JsBoolean (ToBoolean (Get gift "purchased")));
             ("added", js_or (Get gift "added") (JsString (nowISO env))) ].
Proof.
  intros Hg. unfold enhanceGift in Hg.
  apply bind_Normal in Hg. destruct Hg as (id & Hid & Hg).
  apply bind_Normal in Hg. destruct Hg as (rc & Hrc & Hg).
  apply bind_Normal in Hg. destruct Hg as (pr & Hpr & Hg).
  injection Hg as <-. exists id, rc, pr. auto.
Qed.

(** X2.  Whatever [enhanceGift] returns has the enhanced form.  Its [added] is
    truthy when the clock reading is not empty; its [id] is truthy when the
    source [id] is a non-empty string, and when the source [id] is falsy and
    the random id is not empty, as it never is without
    [crypto.randomUUID]. *)
Theorem enhanceGift_enhanced (h : Host) (env : Env) (gift g : Gift) :
  enhanceGift h env gift = Normal g ->
  enhanced g
  /\ (nowISO env <> "" -> ToBoolean (Get g "added") = true)
  /\ (forall s, Get gift "id" = JsString s -> s <> "" -> Get g "id" = JsString s)
  /\ (ToBoolean (Get gift "id") = false ->
      Get g "id" = JsString (cryptoRandomId env)
      /\ (randomUUID env = None -> ToBoolean (Get g "id") = true)).
Proof.
  intros Hg. apply enhanceGift_fields in Hg.
  destruct Hg as (id & rc & pr & Hid & Hrc & Hpr & ->).
  split; [|split; [|split]].
  - exists id, (js_or (Get gift "name") (JsString "Untitled gift")), rc,
      (js_or (Get gift "category") (JsString "experience")),
      (js_or (Get gift "priority") (JsString "Medium")), pr,
      (js_or (Get gift "link") (JsString "")),
      (js_or (Get gift "notes") (JsString "")),
      (ToBoolean (Get gift "purchased")),
      (js_or (Get gift "added") (JsString (nowISO env))).
    split; [reflexivity|].
    split; [apply js_or_truthy; reflexivity|].
    split; [apply (normalizeRecipient_range h _ _ Hrc)|].
    split; [apply js_or_truthy; reflexivity|].
    split; [apply js_or_truthy; reflexivity|].
    split; [apply (normalizePrice_range h _ _ Hpr)|].
    split; apply js_or_empty.
  - intros Hnow. simpl Get. apply js_or_truthy, ToBoolean_string, Hnow.
  - intros s Hs Hne. simpl Get. rewrite Hs in Hid.
    unfold js_or in Hid. rewrite (ToBoolean_string s Hne) in Hid.
    simpl in Hid. congruence.
  - intros Hfalsy. unfold js_or in Hid. rewrite Hfalsy in Hid. simpl in Hid.
    injection Hid as <-. simpl Get. split; [reflexivity|].
    intros Hnone. apply ToBoolean_string, cryptoRandomId_fallback, Hnone.
Qed.

(** The empty object, enhanced in a browser without [crypto.randomUUID]. *)
Lemma enhanceGift_enhanced_witness :
  enhanced [ ("id", JsString "gift-8f3a91c2");
             ("name", JsString "Untitled gift");
             ("recipient", JsString "kids");
             ("category", JsString "experience");
             ("priority", JsString "Medium");
             ("price", JsNull);
             ("link", JsString "");
             ("notes", JsString "");
             ("purchased", JsBoolean false);
             ("added", JsString "2024-05-01T08:00:00.000Z") ].
Proof.
  apply (enhanceGift_enhanced ExampleHost.host
           {| randomUUID := None; mathRandomHex := "8f3a91c2";
              nowISO := "2024-05-01T08:00:00.000Z" |} []).
  reflexivity.
Defined.

(** A settled gift is a fixed point of [enhanceGift], whatever the host,
    the random id and the clock. *)
Lemma settled_fixed (h : Host) (env : Env) (g : Gift) :
  settled g -> enhanceGift h env g = Normal g.
Proof.
  intros ((id & name & rc & cat & pri & pr & link & notes & pur & added
           & -> & Hname & Hrc & Hcat & Hpri & Hpr & Hlink & Hnotes) & Hid & Hadded).
  simpl Get in Hid, Hadded.
  unfold enhanceGift. simpl Get.
  unfold js_or at 1. rewrite Hid. simpl ToString. simpl bind.
  rewrite (normalizeRecipient_fixed h rc Hrc). simpl bind.
  rewrite (normalizePrice_fixed h pr Hpr). simpl bind.
  assert (Hor : forall x d, ToBoolean x = true -> js_or x d = x).
  { intros x d Hx. unfold js_or. rewrite Hx. reflexivity. }
  assert (Hempty : forall x, ToBoolean x = true \/ x = JsString "" ->
                             js_or x (JsString "") = x).
  { intros x [Hx | ->]; [apply Hor; exact Hx | reflexivity]. }
  rewrite (Hor name), (Hor cat), (Hor pri), (Hor added), (Hempty link), (Hempty notes)
    by assumption.
  reflexivity.
Qed.


(** ** loadGifts *)

Lemma mapEnhance_settled (h : Host) (envs : nat -> Env) (gifts : list Gift) :
  Forall settled gifts -> forall i, mapEnhance h envs i gifts = Normal gifts.
Proof.
  induction 1 as [|g rest Hg _ IH]; intros i; simpl; [reflexivity|].
  rewrite (settled_fixed h (envs i) g Hg). simpl. rewrite IH. reflexivity.
Qed.

Lemma starter_settled (id name recipient category priority : string) (price : Z)
    (link notes : string) (purchased : bool) (added : string) :
  id <> "" -> name <> "" -> recipient = "wife" \/ recipient = "kids" ->
  category <> "" -> priority <> "" ->
  Number_isFinite (numberLiteral price) = true -> added <> "" ->
  settled (starter id name recipient category priority price link notes purchased added).
Proof.
  intros Hid Hname Hrc Hcat Hpri Hprice Hadded.
  split; [|split; simpl Get; apply ToBoolean_string; assumption].
  exists id, (JsString name), recipient, (JsString category), (JsString priority),
    (JsNumber (numberLiteral price)), (JsString link), (JsString notes), purchased,
    (JsString added).
  split; [reflexivity|].
  split; [apply ToBoolean_string; exact Hname|].
  split; [exact Hrc|].
  split; [apply ToBoolean_string; exact Hcat|].
  split; [apply ToBoolean_string; exact Hpri|].
  split; [right; eauto|].
  assert (Hs : forall s, ToBoolean (JsString s) = true \/ JsString s = JsString "").
  { intros s. simpl. destruct (String.eqb_spec s ""); [right; subst; reflexivity | left; reflexivity]. }
  split; apply Hs.
Qed.

Lemma defaultGifts_settled : Forall settled defaultGifts.
Proof.
  unfold defaultGifts.
  repeat (apply Forall_cons;
          [apply starter_settled;
           first [discriminate | reflexivity | left; reflexivity | right; reflexivity]|]).
  apply Forall_nil.
Qed.

Lemma enhancedDefaults_eq (h : Host) (envs : nat -> Env) :
  enhancedDefaults h envs = Normal defaultGifts.
Proof. apply mapEnhance_settled, defaultGifts_settled. Qed.

Lemma settled_enhanced (g : Gift) : settled g -> enhanced g.
Proof. intros [H _]. exact H. Qed.

Lemma defaultGifts_enhanced : Forall enhanced defaultGifts.
Proof. apply (Forall_impl _ settled_enhanced), defaultGifts_settled. Qed.

Lemma enhanceGift_gives_enhanced (h : Host) (env : Env) (gift g : Gift) :
  enhanceGift h env gift = Normal g -> enhanced g.
Proof.
  intros Hg. apply enhanceGift_fields in Hg.
  destruct Hg as (id & rc & pr & Hid & Hrc & Hpr & ->).
  exists id, (js_or (Get gift "name") (JsString "Untitled gift")), rc,
    (js_or (Get gift "category") (JsString "experience")),
    (js_or (Get gift "priority") (JsString "Medium")), pr,
    (js_or (Get gift "link") (JsString "")),
    (js_or (Get gift "notes") (JsString "")),
    (ToBoolean (Get gift "purchased")),
    (js_or (Get gift "added") (JsString (nowISO env))).
  split; [reflexivity|].
  split; [apply js_or_truthy; reflexivity|].
  split; [apply (normalizeRecipient_range h _ _ Hrc)|].
  split; [apply js_or_truthy; reflexivity|].
  split; [apply js_or_truthy; reflexivity|].
  split; [apply (normalizePrice_range h _ _ Hpr)|].
  split; apply js_or_empty.
Qed.

Lemma enhanceElement_enhanced (h : Host) (env : Env) (v : JsValue) (g : Gift) :
  enhanceElement h env v = Some (Normal g) -> enhanced g.
Proof.
  destruct v; unfold enhanceElement; intros H; try discriminate;
    match type of H with
    | Some (enhanceGift h env ?gift) = _ =>
        apply (enhanceGift_gives_enhanced h env gift g); congruence
    end.
Qed.

Lemma enhanceParsed_enhanced (h : Host) (envs : nat -> Env) (elems : list JsValue) :
  forall i gifts,
    enhanceParsed h envs i elems = Some (Normal gifts) ->
    Forall enhanced gifts /\ length gifts = length elems.
Proof.
  induction elems as [|v rest IH]; intros i gifts H; simpl in H.
  - injection H as <-. split; [constructor | reflexivity].
  - destruct (enhanceElement h (envs i) v) as [[g|e]|] eqn:Hv; try discriminate.
    destruct (enhanceParsed h envs (S i) rest) as [[gs|e]|] eqn:Hrest; try discriminate.
    injection H as <-. destruct (IH _ _ Hrest) as [Hall Hlen].
    split; [|simpl; congruence].
    constructor; [|exact Hall].
    apply (enhanceElement_enhanced h (envs i) v g Hv).
Qed.

Lemma enhanceParsed_unmodelled (h : Host) (envs : nat -> Env) (elems : list JsValue) :
  forall i, enhanceParsed h envs i elems = None ->
            Exists (fun v => exists s, v = JsString s) elems.
Proof.
  induction elems as [|v rest IH]; intros i H; simpl in H; [discriminate|].
  destruct (enhanceElement h (envs i) v) as [[g|e]|] eqn:Hv.
  - destruct (enhanceParsed h envs (S i) rest) as [[gs|e]|] eqn:Hrest; try discriminate.
    apply Exists_cons_tl, (IH (S i)). exact Hrest.
  - discriminate.
  - apply Exists_cons_hd. destruct v; unfold enhanceElement in Hv; try discriminate. eauto.
Qed.

Lemma enhanceParsed_settled (h : Host) (envs : nat -> Env) (gifts : list Gift) :
  Forall settled gifts ->
  forall i, enhanceParsed h envs i (map JsObject gifts) = Some (Normal gifts).
Proof.
  induction 1 as [|g rest Hg _ IH]; intros i; simpl; [reflexivity|].
  rewrite (settled_fixed h (envs i) g Hg), IH. reflexivity.
Qed.

(** X3.  [loadGifts] never throws.  Within the model it returns a list of
    gifts of the enhanced form: the starter list, or one gift for each
    element of the array parsed from the storage.  It is outside the model
    only when that array holds a string. *)
Theorem loadGifts_never_throws (ph : PageHost) (h : Host) (envs : nat -> Env)
    (st : Storage) :
  match loadGifts ph h envs st with
  | Some (Normal gifts) =>
      Forall enhanced gifts
      /\ (gifts = defaultGifts
          \/ exists stored elems,
               hasLocalStorage st = true
               /\ getItem st = Some (Some stored)
               /\ JSON_parse ph stored = Some (JsArray elems)
               /\ enhanceParsed h envs 0 elems = Some (Normal gifts)
               /\ length gifts = length elems)
  | Some (Throw _) => False
  | None =>
      exists stored elems,
        getItem st = Some (Some stored)
        /\ JSON_parse ph stored = Some (JsArray elems)
        /\ Exists (fun v => exists s, v = JsString s) elems
  end.
Proof.
  unfold loadGifts. rewrite enhancedDefaults_eq.
  assert (Hdef : Forall enhanced defaultGifts
                 /\ (defaultGifts = defaultGifts
                     \/ exists stored elems,
                          hasLocalStorage st = true
                          /\ getItem st = Some (Some stored)
                          /\ JSON_parse ph stored = Some (JsArray elems)
                          /\ enhanceParsed h envs 0 elems = Some (Normal defaultGifts)
                          /\ length defaultGifts = length elems)).
  { split; [apply defaultGifts_enhanced | left; reflexivity]. }
  destruct (hasLocalStorage st) eqn:Hhas; simpl; [|exact Hdef].
  destruct (getItem st) as [[stored|]|] eqn:Hget; try exact Hdef.
  destruct (stored =? ""); [exact Hdef|].
  destruct (JSON_parse ph stored) as [parsed|] eqn:Hparse; [|exact Hdef].
  destruct parsed as [ | | b | n | s | elems | props]; try exact Hdef.
  destruct (enhanceParsed h envs 0 elems) as [[gifts|e]|] eqn:Helems.
  - destruct (enhanceParsed_enhanced h envs elems 0 gifts Helems) as [Hall Hlen].
    split; [exact Hall|]. right. exists stored, elems. auto.
  - exact Hdef.
  - exists stored, elems. split; [reflexivity|]. split; [exact Hparse|].
    apply (enhanceParsed_unmodelled h envs elems 0 Helems).
Qed.

(** X4.  [loadGifts] answers with the starter list, unchanged, whenever the
    storage cannot be used: no local storage, [getItem] throws, nothing
    stored, the empty string stored, a text [JSON.parse] rejects, a parsed
    value that is not an array, or an array whose first element is [null]
    (reading its properties throws).  [handleReset] gives the same list. *)
Theorem loadGifts_falls_back (ph : PageHost) (h : Host) (envs : nat -> Env)
    (st : Storage) :
  (hasLocalStorage st = false
   \/ getItem st = None
   \/ getItem st = Some None
   \/ getItem st = Some (Some "")
   \/ (exists stored, getItem st = Some (Some stored)
                      /\ JSON_parse ph stored = None)
   \/ (exists stored parsed, getItem st = Some (Some stored)
                             /\ JSON_parse ph stored = Some parsed
                             /\ forall elems, parsed <> JsArray elems)
   \/ (exists stored rest, getItem st = Some (Some stored)
                           /\ JSON_parse ph stored = Some (JsArray (JsNull :: rest)))) ->
  loadGifts ph h envs st = Some (Normal defaultGifts)
  /\ handleReset h envs = Normal defaultGifts.
Proof.
  intros Hcase. split; [|apply enhancedDefaults_eq].
  unfold loadGifts. rewrite enhancedDefaults_eq.
  destruct (hasLocalStorage st); simpl; [|reflexivity].
  destruct Hcase as [H | [H | [H | [H | [(stored & H & Hp) | [(stored & parsed & H & Hp & Hna)
                    | (stored & rest & H & Hp)]]]]]];
    try discriminate; rewrite H; try reflexivity.
  - destruct (stored =? ""); [reflexivity|]. rewrite Hp. reflexivity.
  - destruct (stored =? ""); [reflexivity|]. rewrite Hp.
    destruct parsed; try reflexivity. exfalso. apply (Hna elems). reflexivity.
  - destruct (stored =? ""); [reflexivity|]. rewrite Hp. reflexivity.
Qed.

(** A browser without local storage. *)
Lemma loadGifts_falls_back_witness :
  loadGifts (ExamplePage.hostParsing "[]" (JsArray [])) ExampleHost.host
    (fun _ => ExampleHost.env) {| hasLocalStorage := false; getItem := None |}
  = Some (Normal defaultGifts)
  /\ handleReset ExampleHost.host (fun _ => ExampleHost.env) = Normal defaultGifts.
Proof.
  apply (loadGifts_falls_back (ExamplePage.hostParsing "[]" (JsArray []))
           ExampleHost.host (fun _ => ExampleHost.env)
           {| hasLocalStorage := false; getItem := None |}).
  left. reflexivity.
Defined.

(** X5.  Loading is the identity on what the page stores: when the stored text
    parses to an array of settled gifts, [loadGifts] returns exactly these
    gifts, in order, whatever the host, the random ids and the clock. *)
Theorem loadGifts_stable (ph : PageHost) (h : Host) (envs : nat -> Env)
    (st : Storage) (stored : string) (gifts : list Gift) :
  hasLocalStorage st = true ->
  getItem st = Some (Some stored) ->
  stored <> "" ->
  JSON_parse ph stored = Some (JsArray (map JsObject gifts)) ->
  Forall settled gifts ->
  loadGifts ph h envs st = Some (Normal gifts).
Proof.
  intros Hhas Hget Hne Hparse Hall.
  unfold loadGifts. rewrite Hhas, Hget. simpl.
  destruct (String.eqb_spec stored ""); [contradiction|].
  rewrite Hparse, (enhanceParsed_settled h envs gifts Hall 0). reflexivity.
Qed.

(** The starter list, stored and loaded again. *)
Lemma loadGifts_stable_witness :
  loadGifts (ExamplePage.hostParsing "stored starter list"
               (JsArray (map JsObject defaultGifts)))
    ExampleHost.host (fun _ => ExampleHost.env)
    {| hasLocalStorage := true; getItem := Some (Some "stored starter list") |}
  = Some (Normal defaultGifts).
Proof.
  apply (loadGifts_stable
           (ExamplePage.hostParsing "stored starter list"
              (JsArray (map JsObject defaultGifts)))
           ExampleHost.host (fun _ => ExampleHost.env)
           {| hasLocalStorage := true; getItem := Some (Some "stored starter list") |}
           "stored starter list" defaultGifts).
  - reflexivity.
  - reflexivity.
  - discriminate.
  - reflexivity.
  - apply defaultGifts_settled.
Defined.

(** ** updateStats and the toggle button *)

Lemma Get_Put_same (props : list (string * JsValue)) (key : string) (value : JsValue) :
  Get (Put props key value) key = value.
Proof.
  induction props as [|[k v] rest IH]; simpl.
  - rewrite String.eqb_refl. reflexivity.
  - destruct (k =? key) eqn:Hk; simpl; rewrite Hk; [reflexivity | exact IH].
Qed.

Lemma Get_Put_other (props : list (string * JsValue)) (key key' : string)
    (value : JsValue) :
  key' <> key -> Get (Put props key value) key' = Get props key'.
Proof.
  intros Hne. induction props as [|[k v] rest IH]; simpl.
  - destruct (String.eqb_spec key key'); [congruence | reflexivity].
  - destruct (String.eqb_spec k key) as [-> | Hk]; simpl.
    + destruct (String.eqb_spec key key'); [congruence | reflexivity].
    + destruct (k =? key'); [reflexivity | exact IH].
Qed.

(** X6.  The statistics add up: the purchased and the remaining gifts together
    are all the gifts, so the [Math.max(total - purchased, 0)] of the source
    never has to clamp. *)
Theorem updateStats_adds_up (gifts : list Gift) :
  statTotal (updateStats gifts) = Z.of_nat (length gifts)
  /\ (0 <= statPurchased (updateStats gifts) <= statTotal (updateStats gifts))%Z
  /\ statRemaining (updateStats gifts)
     = (statTotal (updateStats gifts) - statPurchased (updateStats gifts))%Z
  /\ (statPurchased (updateStats gifts) + statRemaining (updateStats gifts)
      = statTotal (updateStats gifts))%Z.
Proof.
  unfold updateStats, Gift in *; simpl.
  pose proof (filter_length_le (fun gift => ToBoolean (Get gift "purchased")) gifts)
    as Hle.
  set (p := length (filter (fun gift => ToBoolean (Get gift "purchased")) gifts)) in *.
  repeat split; lia.
Qed.

Lemma purchased_count_app (pre post : list Gift) :
  length (filter (fun gift => ToBoolean (Get gift "purchased")) (pre ++ post))
  = (length (filter (fun gift => ToBoolean (Get gift "purchased")) pre)
     + length (filter (fun gift => ToBoolean (Get gift "purchased")) post))%nat.
Proof. rewrite filter_app, length_app. reflexivity. Qed.

Lemma budget_toggle (pre post : list Gift) (g : Gift) (start : JsNum) :
  fold_left (fun sum gift =>
               match Get gift "price" with
               | JsNumber price => SFadd 53 1024 sum price
               | _ => sum
               end) (pre ++ togglePurchased g :: post) start
  = fold_left (fun sum gift =>
                 match Get gift "price" with
                 | JsNumber price => SFadd 53 1024 sum price
                 | _ => sum
                 end) (pre ++ g :: post) start.
Proof.
  rewrite !fold_left_app. simpl.
  unfold togglePurchased. rewrite Get_Put_other by discriminate. reflexivity.
Qed.

(** X7.  A click on the toggle button of one gift moves exactly that gift
    between purchased and remaining: the total and the budget stay, the
    purchased count goes down by one if the gift was purchased and up by one
    if it was not, and the remaining count moves the other way. *)
Theorem toggle_moves_one (pre post : list Gift) (g : Gift) :
  statTotal (updateStats (pre ++ togglePurchased g :: post))
  = statTotal (updateStats (pre ++ g :: post))
  /\ statPurchased (updateStats (pre ++ togglePurchased g :: post))
     = (statPurchased (updateStats (pre ++ g :: post))
        + (if ToBoolean (Get g "purchased") then -1 else 1))%Z
  /\ statRemaining (updateStats (pre ++ togglePurchased g :: post))
     = (statRemaining (updateStats (pre ++ g :: post))
        - (if ToBoolean (Get g "purchased") then -1 else 1))%Z
  /\ statBudget (updateStats (pre ++ togglePurchased g :: post))
     = statBudget (updateStats (pre ++ g :: post)).
Proof.
  assert (Hflip : ToBoolean (Get (togglePurchased g) "purchased")
                  = negb (ToBoolean (Get g "purchased"))).
  { unfold togglePurchased. rewrite Get_Put_same. reflexivity. }
  unfold updateStats; simpl.
  rewrite budget_toggle, !purchased_count_app, !length_app. simpl.
  unfold Gift in *.
  rewrite Hflip.
  pose proof (filter_length_le (fun gift => ToBoolean (Get gift "purchased")) pre)
    as Hpre.
  pose proof (filter_length_le (fun gift => ToBoolean (Get gift "purchased")) post)
    as Hpost.
  set (p := length (filter (fun gift => ToBoolean (Get gift "purchased")) pre)) in *.
  set (q := length (filter (fun gift => ToBoolean (Get gift "purchased")) post)) in *.
  destruct (ToBoolean (Get g "purchased")); simpl; repeat split; lia.
Qed.

(** X8.  On a gift of the enhanced form the toggle is an involution, and it
    keeps the form: two clicks restore the gift, and a toggled gift, stored
    and loaded again, is still a fixed point of [enhanceGift]. *)
Theorem toggle_involution (g : Gift) :
  enhanced g ->
  togglePurchased (togglePurchased g) = g
  /\ enhanced (togglePurchased g)
  /\ (settled g -> settled (togglePurchased g)).
Proof.
  intros (id & name & rc & cat & pri & pr & link & notes & pur & added
          & -> & Hrest).
  assert (Hform : enhanced
            [ ("id", JsString id); ("name", name); ("recipient", JsString rc);
              ("category", cat); ("priority", pri); ("price", pr); ("link", link);
              ("notes", notes); ("purchased", JsBoolean (negb pur)); ("added", added) ]).
  { exists id, name, rc, cat, pri, pr, link, notes, (negb pur), added.
    split; [reflexivity | exact Hrest]. }
  split; [|split].
  - unfold togglePurchased. simpl. rewrite negb_involutive. reflexivity.
  - exact Hform.
  - intros (_ & Hid & Hadded). split; [exact Hform|].
    split; [exact Hid | exact Hadded].
Qed.

(** The first starter gift, clicked twice. *)
Lemma toggle_involution_witness :
  togglePurchased (togglePurchased (hd [] defaultGifts)) = hd [] defaultGifts
  /\ enhanced (togglePurchased (hd [] defaultGifts))
  /\ (settled (hd [] defaultGifts) -> settled (togglePurchased (hd [] defaultGifts))).
Proof.
  apply (toggle_involution (hd [] defaultGifts)).
  apply settled_enhanced.
  exact (Forall_inv defaultGifts_settled).
Defined.

(** ** renderLists *)

Lemma goesTo_label (h : Host) (gift : Gift) (label : string) :
  normalizeRecipient h (Get gift "recipient") = Normal label ->
  (label = "wife" /\ goesTo h "wife" gift = true /\ goesTo h "kids" gift = false)
  \/ (label = "kids" /\ goesTo h "wife" gift = false /\ goesTo h "kids" gift = true).
Proof.
  intros Hl. unfold goesTo. rewrite Hl.
  destruct (normalizeRecipient_range h _ _ Hl) as [-> | ->]; [left | right]; auto.
Qed.

Lemma groupLoop_two (h : Host) (gifts : list Gift) :
  forall ws ks groups,
    groupLoop h [("wife", ws); ("kids", ks)] gifts = Normal groups ->
    groups = [ ("wife", (ws ++ filter (goesTo h "wife") gifts)%list);
               ("kids", (ks ++ filter (goesTo h "kids") gifts)%list) ].
Proof.
  induction gifts as [|g rest IH]; intros ws ks groups H; simpl in H.
  - injection H as <-. simpl. rewrite !app_nil_r. reflexivity.
  - apply bind_Normal in H. destruct H as (label & Hl & H).
    destruct (goesTo_label h g label Hl) as [(-> & Hw & Hk) | (-> & Hw & Hk)];
      simpl in H; apply IH in H; subst groups; simpl; rewrite Hw, Hk;
      rewrite <- ?app_assoc; reflexivity.
Qed.

Lemma groupLoop_throws (h : Host) (gifts : list Gift) :
  forall grouped,
    groupLoop h grouped gifts = Throw TypeError
    <-> Exists (fun g => hidesToString (Get g "recipient") = true) gifts.
Proof.
  induction gifts as [|g rest IH]; intros grouped; simpl.
  - split; [discriminate | intros H; inversion H].
  - rewrite bind_Throw, Exists_cons, normalizeRecipient_throws. split.
    + intros [H | (label & _ & H)]; [left; exact H | right; apply IH in H; exact H].
    + intros [H | H]; [left; exact H|].
      destruct (completion_cases (normalizeRecipient h (Get g "recipient")))
        as [(label & Hl) | Ht].
      * right. exists label. split; [exact Hl | apply IH; exact H].
      * left. apply normalizeRecipient_throws in Ht. exact Ht.
Qed.

Lemma filter_partition_length {A} (f k : A -> bool) (l : list A) :
  (forall x, In x l -> f x = negb (k x)) ->
  (length (filter f l) + length (filter k l) = length l)%nat.
Proof.
  induction l as [|x rest IH]; intros H; simpl; [reflexivity|].
  rewrite (H x (or_introl eq_refl)).
  assert (IH' := IH (fun y Hy => H y (or_intror Hy))).
  destruct (k x); simpl; lia.
Qed.

(** X9.  The loop of [renderLists] sorts every gift into exactly one of the two
    lists.  When it returns, the groups are the list of "wife" and the list
    of "kids", each holding, in the order of [gifts], the gifts whose
    normalised recipient is its label; no third group is ever created, and
    the two counts shown add up to the number of gifts.  It throws exactly
    when the recipient of some gift hides [toString]. *)
Theorem renderLists_partition (h : Host) (gifts : list Gift) :
  (forall groups, groupGifts h gifts = Normal groups ->
     groups = [ ("wife", filter (goesTo h "wife") gifts);
                ("kids", filter (goesTo h "kids") gifts) ]
     /\ (forall g, In g gifts -> goesTo h "wife" g = negb (goesTo h "kids" g))
     /\ (length (groupOf groups "wife") + length (groupOf groups "kids")
         = length gifts)%nat)
  /\ (groupGifts h gifts = Throw TypeError
      <-> Exists (fun g => hidesToString (Get g "recipient") = true) gifts).
Proof.
  split; [|apply groupLoop_throws].
  intros groups H.
  assert (Hnone : ~ Exists (fun g => hidesToString (Get g "recipient") = true) gifts).
  { intros Hex.
    apply (proj2 (groupLoop_throws h gifts (map (fun key => (key, [])) recipients)))
      in Hex.
    unfold groupGifts in H. rewrite H in Hex. discriminate. }
  apply groupLoop_two in H. simpl in H. subst groups.
  assert (Hexcl : forall g, In g gifts -> goesTo h "wife" g = negb (goesTo h "kids" g)).
  { intros g Hg.
    destruct (completion_cases (normalizeRecipient h (Get g "recipient")))
      as [(label & Hl) | Ht].
    - destruct (goesTo_label h g label Hl) as [(_ & -> & ->) | (_ & -> & ->)];
        reflexivity.
    - exfalso. apply Hnone, Exists_exists. exists g. split; [exact Hg|].
      apply (proj1 (normalizeRecipient_throws h _)), Ht. }
  split; [reflexivity|]. split; [exact Hexcl|].
  simpl. apply filter_partition_length, Hexcl.
Qed.




(** ** The countdown *)

Lemma padStart2_two_digits (n : Z) :
  (0 <= n < 100)%Z -> String.length (padStart2 n) = 2%nat.
Proof.
  intros Hn.
  assert (Hall : forallb (fun k => (String.length (padStart2 (Z.of_nat k)) =? 2)%nat)
                   (seq 0 100) = true) by (vm_compute; reflexivity).
  rewrite forallb_forall in Hall.
  specialize (Hall (Z.to_nat n)).
  rewrite Z2Nat.id in Hall by lia.
  apply Nat.eqb_eq, Hall, in_seq. lia.
Qed.

Lemma string_of_int_nonempty (i : Decimal.signed_int) :
  NilZero.string_of_int i <> "".
Proof.
  destruct i as [d | d]; simpl; [|discriminate].
  unfold NilZero.string_of_uint. destruct d; simpl; discriminate.
Qed.

Lemma padStart2_at_least_two (n : Z) : (2 <= String.length (padStart2 n))%nat.
Proof.
  unfold padStart2.
  pose proof (string_of_int_nonempty (Z.to_int n)) as Hne.
  destruct (NilZero.string_of_int (Z.to_int n)) as [|c s]; [congruence|].
  destruct s as [|c' s']; simpl; lia.
Qed.

(** X11.  The countdown parts add up: for a target that is not in the past, the
    days, hours and minutes shown are non-negative, the hours below 24 and
    the minutes below 60, and together they are exactly the whole minutes
    left.  Hours and minutes are shown with exactly two characters, days
    with at least two. *)
Theorem countdown_adds_up (diff days hours minutes : Z) :
  (0 <= diff)%Z ->
  countdownParts diff = (days, hours, minutes) ->
  (days * (24 * 60) + hours * 60 + minutes = diff / (1000 * 60))%Z
  /\ (0 <= days)%Z /\ (0 <= hours < 24)%Z /\ (0 <= minutes < 60)%Z
  /\ countdownText diff = (padStart2 days, padStart2 hours, padStart2 minutes)
  /\ (2 <= String.length (padStart2 days))%nat
  /\ String.length (padStart2 hours) = 2%nat
  /\ String.length (padStart2 minutes) = 2%nat.
Proof.
  intros Hdiff Hparts.
  assert (Htext : countdownText diff = (padStart2 days, padStart2 hours, padStart2 minutes)).
  { unfold countdownText. rewrite Hparts. reflexivity. }
  unfold countdownParts in Hparts. injection Hparts as Hd Hh Hm.
  change (1000 * 60)%Z with 60000%Z.
  assert (Hmin : (0 <= diff / 60000)%Z) by (apply Z.div_pos; lia).
  set (m := (diff / 60000)%Z) in *. clearbody m.
  rewrite Z.rem_mod_nonneg in Hm by lia.
  assert (Harith : (days * (24 * 60) + hours * 60 + minutes = m)%Z
                   /\ (0 <= days)%Z /\ (0 <= hours < 24)%Z /\ (0 <= minutes < 60)%Z).
  { subst days hours minutes.
    Z.div_mod_to_equations. lia. }
  destruct Harith as (H1 & H2 & H3 & H4).
  repeat split; try lia; try exact Htext.
  - apply padStart2_at_least_two.
  - apply padStart2_two_digits. lia.
  - apply padStart2_two_digits. lia.
Qed.

(** 100 days, 3 hours, 25 minutes and some seconds before the target. *)
Lemma countdown_adds_up_witness :
  (100 * (24 * 60) + 3 * 60 + 25 = 8652330000 / (1000 * 60))%Z
  /\ (0 <= 100)%Z /\ (0 <= 3 < 24)%Z /\ (0 <= 25 < 60)%Z
  /\ countdownText 8652330000 = (padStart2 100, padStart2 3, padStart2 25)
  /\ (2 <= String.length (padStart2 100))%nat
  /\ String.length (padStart2 3) = 2%nat
  /\ String.length (padStart2 25) = 2%nat.
Proof.
  apply (countdown_adds_up 8652330000 100 3 25).
  - lia.
  - reflexivity.
Defined.

(** ** summaryText *)

Lemma string_of_uint_noSpace (d : Decimal.uint) :
  noSpace (NilEmpty.string_of_uint d) = true.
Proof. induction d; simpl; auto. Qed.

Lemma noSpace_prefix (s1 : string) :
  forall s2 r1 r2,
    noSpace s1 = true -> noSpace s2 = true ->
    s1 ++ String " " r1 = s2 ++ String " " r2 -> s1 = s2.
Proof.
  induction s1 as [|c1 s1 IH]; intros [|c2 s2] r1 r2 H1 H2 Heq; simpl in *.
  - reflexivity.
  - injection Heq as Hc _. subst c2. discriminate.
  - injection Heq as Hc _. subst c1. discriminate.
  - injection Heq as -> Heq.
    apply andb_prop in H1. apply andb_prop in H2.
    f_equal. apply (IH s2 r1 r2); tauto.
Qed.

Lemma count_text_inj (a b : nat) :
  NilEmpty.string_of_uint (Nat.to_uint a) = NilEmpty.string_of_uint (Nat.to_uint b) ->
  a = b.
Proof.
  intros H. apply DecimalNat.Unsigned.to_uint_inj.
  pose proof (NilEmpty.usu (Nat.to_uint a)) as Ha.
  pose proof (NilEmpty.usu (Nat.to_uint b)) as Hb.
  rewrite H in Ha. congruence.
Qed.

(** X12.  The count labels are unambiguous: two different counts never show the
    same text.  In particular only an empty list shows "No items yet". *)
Theorem summaryText_injective (a b : nat) :
  summaryText a = summaryText b -> a = b.
Proof.
  unfold summaryText.
  assert (Hzero : forall n w, "No items yet"
                              <> NilEmpty.string_of_uint (Nat.to_uint n) ++ " " ++ w).
  { intros n w Heq.
    change "No items yet" with ("No" ++ String " " "items yet") in Heq.
    apply noSpace_prefix in Heq;
      [|reflexivity | apply string_of_uint_noSpace].
    pose proof (NilEmpty.usu (Nat.to_uint n)) as Hn. rewrite <- Heq in Hn.
    discriminate. }
  destruct (Nat.eqb_spec a 0) as [-> | Ha]; destruct (Nat.eqb_spec b 0) as [-> | Hb].
  - reflexivity.
  - intros H. exfalso. apply (Hzero _ _ H).
  - intros H. exfalso. symmetry in H. apply (Hzero _ _ H).
  - intros H. apply count_text_inj.
    apply (noSpace_prefix _ _ _ _ (string_of_uint_noSpace _) (string_of_uint_noSpace _) H).
Qed.

(** Two lists of twelve gifts. *)
Lemma summaryText_injective_witness : 12%nat = 12%nat.
Proof. apply (summaryText_injective 12 12). reflexivity. Defined.

(** ** handleSubmit *)





Example handleSubmit_kite :
  handleSubmit (ExamplePage.hostParsing "[]" (JsArray [])) ExampleHost.host
    ExampleHost.env ExampleHost.env
    {| formName := Some "  Kite ";
       formRecipient := Some "kids";
       formCategory := Some "experience";
       formPriority := Some "Low";
       formPrice := Some "25";
       formLink := Some "";
       formNotes := None |} []
  = Normal [ [ ("id", JsString "3b241101-e2bb-4255-8caf-4136c566a962");
               ("name", JsString "Kite");
               ("recipient", JsString "kids");
               ("category", JsString "experience");
               ("priority", JsString "Low");
               ("price", JsNumber (numberLiteral 25));
               ("link", JsString "");
               ("notes", JsString "");
               ("purchased", JsBoolean false);
               ("added", JsString "2024-05-01T08:00:00.000Z") ] ].
Proof. vm_compute. reflexivity. Qed.

End GiftPageFacts.

(* ================================================================== *)
(** * Properties of the decay rule *)
(* ================================================================== *)

Module DecayFacts.
Import Decay.
Local Open Scope R_scope.

Lemma decayFactor_pos (lambda dt : R) : 0 < decayFactor lambda dt.
Proof. apply exp_pos. Qed.

Lemma decayFactor_lt_1 (lambda dt : R) :
  0 < lambda -> 0 < dt -> decayFactor lambda dt < 1.
Proof.
  intros Hl Hd. unfold decayFactor. rewrite <- exp_0.
  apply exp_increasing.
  pose proof (Rmult_lt_0_compat _ _ Hl Hd). Lra.lra.
Qed.

Lemma decayFactor_decreasing (lambda dt1 dt2 : R) :
  0 < lambda -> dt1 < dt2 -> decayFactor lambda dt2 < decayFactor lambda dt1.
Proof.
  intros Hl Hd. unfold decayFactor. apply exp_increasing.
  apply Ropp_lt_contravar, Rmult_lt_compat_l; assumption.
Qed.

(** A positive count decays strictly, and stays positive. *)
Lemma count_decays (lambda dt c : R) :
  0 < lambda -> 0 < dt -> 0 < c ->
  0 < c * decayFactor lambda dt < c.
Proof.
  intros Hl Hd Hc.
  pose proof (decayFactor_pos lambda dt) as Hpos.
  pose proof (decayFactor_lt_1 lambda dt Hl Hd) as Hlt.
  split.
  - apply Rmult_lt_0_compat; assumption.
  - rewrite <- (Rmult_1_r c) at 2. apply Rmult_lt_compat_l; assumption.
Qed.

(** Past [c / (floor * lambda)] of elapsed time a count [c] is below the
    floor. *)
Lemma count_reaches_floor (lambda c floor dt : R) :
  0 < lambda -> 0 < c -> 0 < floor ->
  c / (floor * lambda) <= dt ->
  c * decayFactor lambda dt < floor.
Proof.
  intros Hl Hc Hf Hdt.
  assert (Hfl : 0 < floor * lambda) by (apply Rmult_lt_0_compat; assumption).
  assert (Hdtpos : 0 < dt).
  { apply Rlt_le_trans with (c / (floor * lambda)); [|exact Hdt].
    apply Rdiv_lt_0_compat; assumption. }
  assert (Hx : 0 < lambda * dt) by (apply Rmult_lt_0_compat; assumption).
  assert (Hbig : c / floor < exp (lambda * dt)).
  { apply Rle_lt_trans with (lambda * dt).
    - apply Rmult_le_compat_l with (r := lambda) in Hdt; [|Lra.lra].
      replace (lambda * (c / (floor * lambda))) with (c / floor) in Hdt
        by (field; split; Lra.lra).
      exact Hdt.
    - assert (Hne : lambda * dt <> 0) by Lra.lra.
      pose proof (exp_ineq1 (lambda * dt) Hne). Lra.lra. }
  unfold decayFactor. rewrite exp_Ropp.
  pose proof (exp_pos (lambda * dt)) as Hexp.
  apply Rmult_lt_reg_r with (exp (lambda * dt)); [exact Hexp|].
  replace (c * / exp (lambda * dt) * exp (lambda * dt)) with c
    by (field; Lra.lra).
  apply Rmult_lt_compat_l with (r := floor) in Hbig; [|exact Hf].
  replace (floor * (c / floor)) with c in Hbig by (field; Lra.lra).
  exact Hbig.
Qed.

Lemma tick_cases (lambda floor now : R) (s : Counts) :
  (tick lambda floor now s = None
   /\ (antecedentCount (decayed lambda now s) < floor
       \/ episodeCount (decayed lambda now s) < floor))
  \/ (tick lambda floor now s = Some (decayed lambda now s)
      /\ floor <= antecedentCount (decayed lambda now s)
      /\ floor <= episodeCount (decayed lambda now s)).
Proof.
  unfold tick.
  destruct (Rlt_dec (antecedentCount (decayed lambda now s)) floor) as [Ha | Ha];
    [left; auto|].
  destruct (Rlt_dec (episodeCount (decayed lambda now s)) floor) as [He | He];
    [left; auto|].
  right. split; [reflexivity|]. split; Lra.lra.
Qed.

(** C6.  For a decay rate [lambda > 0] and a pattern with positive counts
    to which no new event arrives, applying the decay rule over any strictly
    positive elapsed time leaves both [antecedentCount] and [episodeCount]
    positive and strictly smaller; the longer the elapsed time the smaller
    both are, and a further application decreases them again.  The tick
    keeps the pattern, with the decayed counts, while both are at or above
    the prune floor, and removes it once a count is below; with a positive
    floor that happens for every elapsed time past some bound. *)
Theorem decay_strictly_decreases (lambda floor now : R) (s : Counts) :
  0 < lambda ->
  lastSeenAt s < now ->
  0 < antecedentCount s ->
  0 < episodeCount s ->
  0 < antecedentCount (decayed lambda now s) < antecedentCount s
  /\ 0 < episodeCount (decayed lambda now s) < episodeCount s
  /\ lastSeenAt (decayed lambda now s) = lastSeenAt s
  /\ (forall later, now < later ->
        antecedentCount (decayed lambda later s) < antecedentCount (decayed lambda now s)
        /\ episodeCount (decayed lambda later s) < episodeCount (decayed lambda now s))
  /\ (forall next, lastSeenAt s < next ->
        0 < antecedentCount (decayed lambda next (decayed lambda now s))
          < antecedentCount (decayed lambda now s)
        /\ 0 < episodeCount (decayed lambda next (decayed lambda now s))
             < episodeCount (decayed lambda now s))
  /\ ((tick lambda floor now s = None
       /\ (antecedentCount (decayed lambda now s) < floor
           \/ episodeCount (decayed lambda now s) < floor))
      \/ (tick lambda floor now s = Some (decayed lambda now s)
          /\ floor <= antecedentCount (decayed lambda now s)
          /\ floor <= episodeCount (decayed lambda now s)))
  /\ (0 < floor ->
      exists bound, forall later, lastSeenAt s + bound <= later ->
                                  tick lambda floor later s = None).
Proof.
  intros Hl Hnow Ha He.
  assert (Hdt : 0 < now - lastSeenAt s) by Lra.lra.
  pose proof (count_decays lambda _ _ Hl Hdt Ha) as Hda.
  pose proof (count_decays lambda _ _ Hl Hdt He) as Hde.
  split; [exact Hda|]. split; [exact Hde|]. split; [reflexivity|].
  split; [|split; [|split]].
  - intros later Hlater. simpl.
    assert (Hf : decayFactor lambda (later - lastSeenAt s)
                 < decayFactor lambda (now - lastSeenAt s))
      by (apply decayFactor_decreasing; [exact Hl | Lra.lra]).
    split; apply Rmult_lt_compat_l; assumption.
  - intros next Hnext.
    assert (Hdt' : 0 < next - lastSeenAt (decayed lambda now s)) by (simpl; Lra.lra).
    split.
    + apply (count_decays lambda _ _ Hl Hdt'), Hda.
    + apply (count_decays lambda _ _ Hl Hdt'), Hde.
  - apply tick_cases.
  - intros Hfloor.
    exists (Rmax (antecedentCount s / (floor * lambda))
                 (episodeCount s / (floor * lambda))).
    intros later Hlater.
    destruct (tick_cases lambda floor later s) as [[Hnone _] | (_ & Hkeep & _)];
      [exact Hnone|].
    exfalso.
    assert (Hlong : antecedentCount s / (floor * lambda) <= later - lastSeenAt s).
    { pose proof (Rmax_l (antecedentCount s / (floor * lambda))
                         (episodeCount s / (floor * lambda))). Lra.lra. }
    pose proof (count_reaches_floor lambda _ floor _ Hl Ha Hfloor Hlong) as Hlow.
    simpl in Hkeep. Lra.lra.
Qed.

(** The example pattern, one time unit after it was last seen, at the rate
    1 and the floor 1/100. *)
Lemma decay_strictly_decreases_witness :
  0 < antecedentCount (decayed 1 141 exampleCounts) < antecedentCount exampleCounts
  /\ 0 < episodeCount (decayed 1 141 exampleCounts) < episodeCount exampleCounts
  /\ lastSeenAt (decayed 1 141 exampleCounts) = lastSeenAt exampleCounts
  /\ (forall later, 141 < later ->
        antecedentCount (decayed 1 later exampleCounts)
        < antecedentCount (decayed 1 141 exampleCounts)
        /\ episodeCount (decayed 1 later exampleCounts)
           < episodeCount (decayed 1 141 exampleCounts))
  /\ (forall next, lastSeenAt exampleCounts < next ->
        0 < antecedentCount (decayed 1 next (decayed 1 141 exampleCounts))
          < antecedentCount (decayed 1 141 exampleCounts)
        /\ 0 < episodeCount (decayed 1 next (decayed 1 141 exampleCounts))
             < episodeCount (decayed 1 141 exampleCounts))
  /\ ((tick 1 (1 / 100) 141 exampleCounts = None
       /\ (antecedentCount (decayed 1 141 exampleCounts) < 1 / 100
           \/ episodeCount (decayed 1 141 exampleCounts) < 1 / 100))
      \/ (tick 1 (1 / 100) 141 exampleCounts = Some (decayed 1 141 exampleCounts)
          /\ 1 / 100 <= antecedentCount (decayed 1 141 exampleCounts)
          /\ 1 / 100 <= episodeCount (decayed 1 141 exampleCounts)))
  /\ (0 < 1 / 100 ->
      exists bound, forall later, lastSeenAt exampleCounts + bound <= later ->
                                  tick 1 (1 / 100) later exampleCounts = None).
Proof.
  apply (decay_strictly_decreases 1 (1 / 100) 141 exampleCounts).
  - Lra.lra.
  - simpl. Lra.lra.
  - simpl. Lra.lra.
  - simpl. Lra.lra.
Defined.

End DecayFacts.
